(** * Listing controller: filter builder, cache-aside reads, write path

    A shallow embedding of [src/api/listingProperty/listingProperty.service.js]:
    the Express handlers [getProperties], [postProperty], [getMyProperties],
    [deleteProperty], [updateProperty] and the five reference-list handlers.

    The handlers are asynchronous JavaScript functions that talk to a Redis
    client and to a query module.  Each one is embedded as a computation in
    a state-and-exception monad over a [world] made of the cache, the
    document store, the clock and the log of calls issued to the two
    stores; [await] is sequencing, a [throw] inside [try] ends in
    [next(error)].  One handler runs to completion before the next one
    starts: interleavings of concurrent requests are outside the model. *)

From Stdlib Require Import ZArith Ascii String List Bool Lia DecimalString.
From stdpp Require Import base option list gmap strings.

Local Open Scope string_scope.
Local Open Scope Z_scope.
#[local] Set Warnings "-register-all".

(** ** Text helpers *)

Definition code (c : ascii) : nat := nat_of_ascii c.

Definition between (lo hi n : nat) : bool := (lo <=? n)%nat && (n <=? hi)%nat.

Definition is_hex_digit (c : ascii) : bool :=
  between 48 57 (code c) || between 65 70 (code c) || between 97 102 (code c).

Definition is_dec_digit (c : ascii) : bool := between 48 57 (code c).

Definition lower_ascii (c : ascii) : ascii :=
  if between 65 90 (code c) then ascii_of_nat (code c + 32) else c.

Fixpoint string_forallb (p : ascii -> bool) (s : string) : bool :=
  match s with
  | EmptyString => true
  | String c s' => p c && string_forallb p s'
  end.

Fixpoint string_map (f : ascii -> ascii) (s : string) : string :=
  match s with
  | EmptyString => EmptyString
  | String c s' => String (f c) (string_map f s')
  end.

(** [Array.prototype.join]. *)
Fixpoint join (sep : string) (l : list string) : string :=
  match l with
  | [] => ""
  | [x] => x
  | x :: rest => x ++ sep ++ join sep rest
  end.

(** Decimal text of an integer: [Number.prototype.toString] on a safe
    integer, and [Date.now().toString()]. *)
Definition string_of_Z (z : Z) : string := NilZero.string_of_int (Z.to_int z).

(** Value of a run of decimal digits, most significant first. *)
Fixpoint digits_value (acc : Z) (s : string) : Z :=
  match s with
  | EmptyString => acc
  | String c s' => digits_value (10 * acc + (Z.of_nat (code c) - 48)) s'
  end.

(** ** Errors and results

    [InvalidReference] is the [BSONError] thrown by [new ObjectId(..)] on
    an argument it does not accept.  [InvalidDate] and [StoreError] are
    the two other kinds of the error taxonomy; no statement of the
    service raises [InvalidDate]. *)

Inductive error := InvalidReference | InvalidDate | StoreError.

Inductive result (A : Type) :=
| Ok (a : A)
| Throw (e : error).
Arguments Ok {A} a.
Arguments Throw {A} e.

Global Instance result_ret : MRet result := fun A a => Ok a.

Global Instance result_bind : MBind result := fun A B k m =>
  match m with
  | Ok a => k a
  | Throw e => Throw e
  end.

(** [xs.map(f)] where [f] may throw: the first exception, left to right,
    aborts the map. *)
Fixpoint map_result {A B} (f : A -> result B) (l : list A) : result (list B) :=
  match l with
  | [] => Ok []
  | x :: rest => y ← f x; ys ← map_result f rest; Ok (y :: ys)
  end.

(** ** Values

    [ObjectId]: the twelve bytes of a MongoDB identifier, kept as the 24
    lower-case hexadecimal digits that [toHexString] prints. *)

Record ObjectId := mkObjectId { toHexString : string }.

Definition ObjectId_isValid (s : string) : bool :=
  (String.length s =? 24)%nat && string_forallb is_hex_digit s.

(** [new ObjectId(s)] on a string (bson 5 and later): 24 hexadecimal
    digits, or a [BSONError]. *)
Definition new_ObjectId (s : string) : result ObjectId :=
  if ObjectId_isValid s then Ok (mkObjectId (string_map lower_ascii s))
  else Throw InvalidReference.

(** JavaScript numbers produced by [Number(text)].  A text made of
    decimal digits whose value is at most 2^53 is that integer, exactly;
    every other text is kept as [NLit text], standing for the double (or
    NaN) that [StringToNumber] assigns to it, which the model does not
    evaluate. *)
Inductive number :=
| NInt (z : Z)
| NLit (s : string).

Definition Number_of_string (s : string) : number :=
  if string_forallb is_dec_digit s && (digits_value 0 s <=? 2 ^ 53)
  then NInt (digits_value 0 s)
  else NLit s.

(** Values held by filter documents, request bodies, stored documents and
    JSON payloads.  An object is the list of its own properties in
    insertion order, which is the order [JSON.stringify] prints and the
    order a spread copies.  [VDate None] is an [Invalid Date]; [VDate
    (Some t)] has time value [t] (milliseconds since the epoch). *)
Inductive value :=
| VNull
| VBool (b : bool)
| VNum (n : number)
| VStr (s : string)
| VOid (o : ObjectId)
| VDate (t : option Z)
| VArr (items : list value)
| VObj (fields : list (string * value)).

Abbreviation obj := (list (string * value)).

(** [o[k]]: the first (and, for objects built by [set_field], only)
    property named [k]. *)
Fixpoint get_field (k : string) (o : obj) : option value :=
  match o with
  | [] => None
  | (k', v) :: rest => if String.eqb k k' then Some v else get_field k rest
  end.

(** [o[k] = v]: an existing property keeps its place, a new one goes
    last. *)
Fixpoint set_field (k : string) (v : value) (o : obj) : obj :=
  match o with
  | [] => [(k, v)]
  | (k', v') :: rest =>
      if String.eqb k k' then (k, v) :: rest else (k', v') :: set_field k v rest
  end.

(** [{...a, ...b}] / [Object.assign(a, b)]. *)
Definition assign (a b : obj) : obj :=
  fold_left (fun acc kv => set_field (fst kv) (snd kv) acc) b a.

Definition keys (o : obj) : list string := map fst o.

(** ** The platform

    What the service takes from its surroundings and the sources do not
    fix: the date parser and printer of the JavaScript engine, the text
    the engine prints for a number outside the integer fragment, the two
    TTLs of [config] (seconds), and the selection that the query module
    performs for a search filter. *)

Record platform := {
  Date_parse : string -> option Z;
  Date_toISOString : Z -> string;
  Number_text : string -> string;
  CACHE_TTL : Z;
  PROPERTY_CACHE_TTL : Z;
  find_properties : obj -> list value -> list value
}.

(** ** [JSON.stringify] *)

Definition dquote : string := String (ascii_of_nat 34) "".
Definition backslash : string := String (ascii_of_nat 92) "".

Definition hex_char (n : nat) : ascii :=
  nth n (list_ascii_of_string "0123456789abcdef") "0"%char.

(** [QuoteJSONString], one code unit at a time. *)
Definition escape_char (c : ascii) : string :=
  let n := code c in
  if (n =? 34)%nat then backslash ++ dquote
  else if (n =? 92)%nat then backslash ++ backslash
  else if (n =? 8)%nat then backslash ++ "b"
  else if (n =? 12)%nat then backslash ++ "f"
  else if (n =? 10)%nat then backslash ++ "n"
  else if (n =? 13)%nat then backslash ++ "r"
  else if (n =? 9)%nat then backslash ++ "t"
  else if (n <? 32)%nat then
    backslash ++ "u00" ++ String (hex_char (n / 16)) (String (hex_char (n mod 16)) "")
  else String c "".

Fixpoint escape (s : string) : string :=
  match s with
  | EmptyString => ""
  | String c s' => escape_char c ++ escape s'
  end.

Definition quote (s : string) : string := dquote ++ escape s ++ dquote.

Section Stringify.
Variable P : platform.

Fixpoint JSON_stringify (v : value) : string :=
  match v with
  | VNull => "null"
  | VBool true => "true"
  | VBool false => "false"
  | VNum (NInt z) => string_of_Z z
  | VNum (NLit s) => Number_text P s
  | VStr s => quote s
  | VOid o => quote (toHexString o)
  | VDate (Some t) => quote (Date_toISOString P t)
  | VDate None => "null"
  | VArr items => "[" ++ join "," (map JSON_stringify items) ++ "]"
  | VObj fields =>
      "{" ++ join "," (map (fun kv => quote (fst kv) ++ ":" ++ JSON_stringify (snd kv)) fields) ++ "}"
  end.
End Stringify.

(** ** Express requests

    A query-string parameter as [qs] hands it over: a string, or an array
    of strings when the name is repeated.  (Bracketed names, which [qs]
    turns into nested objects, are not part of the model.) *)

Inductive qval :=
| QStr (s : string)
| QArr (items : list string).

Record query := {
  typeId : option qval;
  stateId : option qval;
  cityId : option qval;
  title : option qval;
  availableFrom : option qval;
  minPrice : option qval;
  maxPrice : option qval;
  minBedrooms : option qval;
  minBathrooms : option qval;
  minRating : option qval;
  listingType : option qval;
  furnished : option qval;
  amenityIds : option qval;
  tagIds : option qval
}.

Definition no_query : query :=
  {| typeId := None; stateId := None; cityId := None; title := None;
     availableFrom := None; minPrice := None; maxPrice := None;
     minBedrooms := None; minBathrooms := None; minRating := None;
     listingType := None; furnished := None; amenityIds := None;
     tagIds := None |}.

(** [if (req.query?.x)]: [undefined] and the empty string are falsy, any
    other string and any array are truthy. *)
Definition truthy (p : option qval) : bool :=
  match p with
  | None => false
  | Some (QStr s) => negb (String.eqb s "")
  | Some (QArr _) => true
  end.

(** [String(x)] on a parameter. *)
Definition String_of (x : qval) : string :=
  match x with
  | QStr s => s
  | QArr items => join "," items
  end.

(** The parameter as a value of a document. *)
Definition value_of (x : qval) : value :=
  match x with
  | QStr s => VStr s
  | QArr items => VArr (map VStr items)
  end.

(** [new ObjectId(x)] on a parameter: an array is none of the accepted
    argument types. *)
Definition ObjectId_of (x : qval) : result ObjectId :=
  match x with
  | QStr s => new_ObjectId s
  | QArr _ => Throw InvalidReference
  end.

(** [Number(x)] on a parameter. *)
Definition Number (x : qval) : number := Number_of_string (String_of x).

(** ** The filter builder (lines 8-52 of the service)

    [when_given p f fq] is [if (req.query?.p) f(req.query.p)]: the
    statement runs on the parameter when it is truthy and leaves the
    filter alone otherwise. *)

Definition when_given {A} (p : option qval) (f : qval -> A -> result A) (a : A) : result A :=
  match p with
  | Some x => if truthy p then f x a else Ok a
  | None => Ok a
  end.

Definition put (k : string) (v : value) (fq : obj) : result obj := Ok (set_field k v fq).

(** Lines 37-45: a string is wrapped into a one-element array; what is
    left is an array, or a falsy value for which line 47 (resp. 50) does
    nothing. *)
Definition processed (p : option qval) : option (list string) :=
  match p with
  | Some (QStr s) => if truthy p then Some [s] else None
  | Some (QArr items) => Some items
  | None => None
  end.

Definition put_all (k : string) (ids : option (list string)) (fq : obj) : result obj :=
  match ids with
  | Some l => oids ← map_result new_ObjectId l; put k (VObj [("$all", VArr (map VOid oids))]) fq
  | None => Ok fq
  end.

Section Filter.
Variable P : platform.

(** [new Date(x)]. *)
Definition new_Date (x : qval) : value := VDate (Date_parse P (String_of x)).

Definition price_range (q : query) : obj :=
  let price : obj := [] in
  let price := match minPrice q with
               | Some x => if truthy (minPrice q) then set_field "$gte" (VNum (Number x)) price else price
               | None => price
               end in
  let price := match maxPrice q with
               | Some x => if truthy (maxPrice q) then set_field "$lte" (VNum (Number x)) price else price
               | None => price
               end in
  price.

Definition build_findQuery (q : query) : result obj :=
  let findQuery : obj := [] in
  findQuery ← when_given (typeId q) (fun x fq => o ← ObjectId_of x; put "typeId" (VOid o) fq) findQuery;
  findQuery ← when_given (stateId q) (fun x fq => o ← ObjectId_of x; put "stateId" (VOid o) fq) findQuery;
  findQuery ← when_given (cityId q) (fun x fq => o ← ObjectId_of x; put "cityId" (VOid o) fq) findQuery;
  findQuery ← when_given (title q)
    (put "title" ∘ (fun x => VObj [("$regex", value_of x); ("$options", VStr "i")])) findQuery;
  findQuery ← when_given (availableFrom q)
    (put "availableFrom" ∘ (fun x => VObj [("$lte", new_Date x)])) findQuery;
  findQuery ← (if truthy (minPrice q) || truthy (maxPrice q)
               then put "price" (VObj (price_range q)) findQuery
               else Ok findQuery);
  findQuery ← when_given (minBedrooms q)
    (put "bedrooms" ∘ (fun x => VObj [("$gte", VNum (Number x))])) findQuery;
  findQuery ← when_given (minBathrooms q)
    (put "bathrooms" ∘ (fun x => VObj [("$gte", VNum (Number x))])) findQuery;
  findQuery ← when_given (minRating q)
    (put "rating" ∘ (fun x => VObj [("$gte", VNum (Number x))])) findQuery;
  findQuery ← when_given (listingType q) (put "listingType" ∘ value_of) findQuery;
  findQuery ← when_given (furnished q) (put "furnished" ∘ value_of) findQuery;
  let processedAmenityIds := processed (amenityIds q) in
  let processedTagIds := processed (tagIds q) in
  findQuery ← put_all "amenityIds" processedAmenityIds findQuery;
  findQuery ← put_all "tagIds" processedTagIds findQuery;
  Ok findQuery.

(** Line 55. *)
Definition search_key (findQuery : obj) : string :=
  "properties:" ++ JSON_stringify P (VObj findQuery).
End Filter.

(** *** What the filter is meant to hold

    The contract of the builder, one rule per parameter: [constrains P q k
    v] when the parameters of [q] ask for the constraint [v] on the
    attribute [k]. *)

Definition present (p : option qval) (x : qval) : Prop := p = Some x /\ x <> QStr "".

Inductive listed : option qval -> list string -> Prop :=
| listed_one s : s <> "" -> listed (Some (QStr s)) [s]
| listed_many items : listed (Some (QArr items)) items.

Definition bound (op : string) (p : option qval) : obj :=
  match p with
  | Some x => if truthy p then [(op, VNum (Number x))] else []
  | None => []
  end.

Inductive constrains (P : platform) (q : query) : string -> value -> Prop :=
| by_typeId x o : present (typeId q) x -> ObjectId_of x = Ok o ->
    constrains P q "typeId" (VOid o)
| by_stateId x o : present (stateId q) x -> ObjectId_of x = Ok o ->
    constrains P q "stateId" (VOid o)
| by_cityId x o : present (cityId q) x -> ObjectId_of x = Ok o ->
    constrains P q "cityId" (VOid o)
| by_title x : present (title q) x ->
    constrains P q "title" (VObj [("$regex", value_of x); ("$options", VStr "i")])
| by_availableFrom x : present (availableFrom q) x ->
    constrains P q "availableFrom" (VObj [("$lte", VDate (Date_parse P (String_of x)))])
| by_price : (exists x, present (minPrice q) x) \/ (exists x, present (maxPrice q) x) ->
    constrains P q "price" (VObj (bound "$gte" (minPrice q) ++ bound "$lte" (maxPrice q)))
| by_minBedrooms x : present (minBedrooms q) x ->
    constrains P q "bedrooms" (VObj [("$gte", VNum (Number x))])
| by_minBathrooms x : present (minBathrooms q) x ->
    constrains P q "bathrooms" (VObj [("$gte", VNum (Number x))])
| by_minRating x : present (minRating q) x ->
    constrains P q "rating" (VObj [("$gte", VNum (Number x))])
| by_listingType x : present (listingType q) x ->
    constrains P q "listingType" (value_of x)
| by_furnished x : present (furnished q) x ->
    constrains P q "furnished" (value_of x)
| by_amenityIds l oids : listed (amenityIds q) l -> map_result new_ObjectId l = Ok oids ->
    constrains P q "amenityIds" (VObj [("$all", VArr (map VOid oids))])
| by_tagIds l oids : listed (tagIds q) l -> map_result new_ObjectId l = Ok oids ->
    constrains P q "tagIds" (VObj [("$all", VArr (map VOid oids))]).

(** Well-formed identifiers: the only parameters on which the builder can
    fail. *)
Definition ok_id (p : option qval) : bool :=
  match p with
  | None => true
  | Some (QStr s) => String.eqb s "" || ObjectId_isValid s
  | Some (QArr _) => false
  end.

Definition ok_ids (p : option qval) : bool :=
  match p with
  | None => true
  | Some (QStr s) => String.eqb s "" || ObjectId_isValid s
  | Some (QArr items) => forallb ObjectId_isValid items
  end.

Definition valid_query (q : query) : bool :=
  ok_id (typeId q) && ok_id (stateId q) && ok_id (cityId q)
  && ok_ids (amenityIds q) && ok_ids (tagIds q).

(** A small platform for the examples: its date parser knows one date
    and rejects every other text, its numbers print as they were
    written, and its search selects every property. *)
Definition toy : platform :=
  {| Date_parse := fun s => if String.eqb s "1970-01-01" then Some 0 else None;
     Date_toISOString := fun _ => "1970-01-01T00:00:00.000Z";
     Number_text := fun s => s;
     CACHE_TTL := 3600; PROPERTY_CACHE_TTL := 300;
     find_properties := fun _ docs => docs |}.

(** [?minPrice=1000&maxPrice=2000&minBedrooms=2]. *)
Definition q_example : query :=
  {| typeId := None; stateId := None; cityId := None; title := None;
     availableFrom := None; minPrice := Some (QStr "1000"); maxPrice := Some (QStr "2000");
     minBedrooms := Some (QStr "2"); minBathrooms := None; minRating := None;
     listingType := None; furnished := None; amenityIds := None;
     tagIds := None |}.

(** ** The two stores *)

(** A cached text and the instant (milliseconds) at which Redis drops it.
    The service only stores texts printed by [JSON.stringify] and reads
    them back with [JSON.parse]; a text is kept here as the value it
    denotes, so that storing [JSON.stringify(x)] stores [toJSON x] and
    [JSON.parse] of a stored text is the stored value.  Such a text is
    never empty: [if (cached)] tests that the key is present. *)
Record entry := { payload : value; expires : Z }.

(** The collections behind the query module, and the number of
    identifiers the store has handed out. *)
Record database := {
  properties : list value;
  cities : list value;
  states : list value;
  propertyTypes : list value;
  propertyTags : list value;
  amenities : list value;
  minted : N
}.

(** The calls a handler issues, in the order it issues them. *)
Inductive call :=
| redis_GET (key : string)
| redis_SETEX (key : string) (ttl : Z) (text : value)
| redis_DEL (key : string)
| queries_call (name : string) (args : list value).

Record world := {
  cache : gmap string entry;
  db : database;
  clock : Z;
  calls : list call
}.

(** Computations of a handler: they read and change the world, and
    return or throw. *)
Record M (A : Type) : Type := action { run : world -> result A * world }.
Arguments action {A} _.
Arguments run {A} _ _.

Global Instance M_ret : MRet M := fun A a => action (fun w => (Ok a, w)).

Global Instance M_bind : MBind M := fun A B k m =>
  action (fun w =>
    match run m w with
    | (Ok a, w') => run (k a) w'
    | (Throw e, w') => (Throw e, w')
    end).

(** A computation that touches no store: it returns or throws. *)
Definition lift {A} (r : result A) : M A := action (fun w => (r, w)).

Definition record (c : call) : M unit := action (fun w =>
  (Ok tt, {| cache := cache w; db := db w; clock := clock w;
             calls := (calls w ++ [c])%list |})).

Definition with_cache (f : Z -> gmap string entry -> gmap string entry) : M unit :=
  action (fun w =>
    (Ok tt, {| cache := f (clock w) (cache w); db := db w; clock := clock w;
               calls := calls w |})).

Definition with_db {A} (f : database -> A * database) : M A := action (fun w =>
  let (a, d) := f (db w) in
  (Ok a, {| cache := cache w; db := d; clock := clock w; calls := calls w |})).

(** [Date.now()]. *)
Definition Date_now : M Z := action (fun w => (Ok (clock w), w)).

(** What an entry of the cache answers at instant [now]. *)
Definition live (now : Z) (e : entry) : option value :=
  if now <? expires e then Some (payload e) else None.

Definition cached (w : world) (key : string) : option value :=
  cache w !! key ≫= live (clock w).

(** The value [JSON.parse(JSON.stringify(v))]: identifiers and dates
    through their [toJSON]. *)
Fixpoint toJSON (P : platform) (v : value) : value :=
  match v with
  | VOid o => VStr (toHexString o)
  | VDate (Some t) => VStr (Date_toISOString P t)
  | VDate None => VNull
  | VArr items => VArr (map (toJSON P) items)
  | VObj fields => VObj (map (fun kv => (fst kv, toJSON P (snd kv))) fields)
  | _ => v
  end.

(** *** The cache client

    Modelled from the spec: the Redis client of [helper/redisClient] is
    not among the sources.  The cache store has [get(key)] answering a
    text or nothing, [setWithExpiry(key, ttlSeconds, value)], and
    [delete(keyOrPattern)], whose effect is to evict every entry whose
    key matches the pattern, [*] standing for any run of characters (all
    keys prefixed [properties:] for the pattern [properties:*]); an entry
    is absent once its TTL has run out. *)

Fixpoint glob (pattern : string) : string -> bool :=
  match pattern with
  | EmptyString => fun key => match key with EmptyString => true | _ => false end
  | String c rest =>
      if Ascii.eqb c "*" then
        fix any (key : string) : bool :=
          glob rest key || match key with
                           | EmptyString => false
                           | String _ key' => any key'
                           end
      else fun key =>
        match key with
        | EmptyString => false
        | String d key' => Ascii.eqb c d && glob rest key'
        end
  end.

Definition evict (keyOrPattern : string) (m : gmap string entry) : gmap string entry :=
  filter (fun kv => glob keyOrPattern (fst kv) = false) m.

Definition redis_get (key : string) : M (option value) :=
  _ ← record (redis_GET key);
  action (fun w => (Ok (cached w key), w)).

Definition redis_setex (key : string) (ttl : Z) (text : value) : M unit :=
  _ ← record (redis_SETEX key ttl text);
  with_cache (fun now m => <[key := {| payload := text; expires := now + 1000 * ttl |}]> m).

Definition redis_del (keyOrPattern : string) : M unit :=
  _ ← record (redis_DEL keyOrPattern);
  with_cache (fun _ m => evict keyOrPattern m).

(** *** The query module

    Modelled from the spec: [listingProperty.queries] is not among the
    sources.  The persistence store offers [find(filter)] answering a
    list, [findOne/updateOne/deleteOne(filter, ..)] answering a Property
    or null, and a fixed read per reference list; it answers null or the
    empty list for absence and never throws for it.  A Property holds
    identifiers (its own, its owner's): the store compares identifiers,
    whichever way one is written, so an [ObjectId] and the 24-digit text
    that denotes it are the same identifier.  The selection made for a
    search filter is the platform's [find_properties]. *)

Definition id_text (v : value) : option string :=
  match v with
  | VOid o => Some (toHexString o)
  | VStr s =>
      match new_ObjectId s with
      | Ok o => Some (toHexString o)
      | Throw _ => Some s
      end
  | _ => None
  end.

Definition same_id (a b : value) : bool :=
  match id_text a, id_text b with
  | Some x, Some y => String.eqb x y
  | _, _ => false
  end.

(** The document satisfies every equality of an owner-or-identifier
    filter. *)
Definition selects (filter : obj) (doc : value) : bool :=
  match doc with
  | VObj fields =>
      forallb (fun kv => match get_field (fst kv) fields with
                         | Some v => same_id (snd kv) v
                         | None => false
                         end) filter
  | _ => false
  end.

Fixpoint hex_digits (n : nat) (x : N) (acc : string) : string :=
  match n with
  | O => acc
  | S n' => hex_digits n' (x / 16)%N (String (hex_char (N.to_nat (x mod 16)%N)) acc)
  end.

(** The identifier the store gives to its [n]-th new document. *)
Definition mint (n : N) : ObjectId := mkObjectId (hex_digits 24 n "").

Definition set_properties (l : list value) (d : database) : database :=
  {| properties := l; cities := cities d; states := states d;
     propertyTypes := propertyTypes d; propertyTags := propertyTags d;
     amenities := amenities d; minted := minted d |}.

Definition bump (d : database) : database :=
  {| properties := properties d; cities := cities d; states := states d;
     propertyTypes := propertyTypes d; propertyTags := propertyTags d;
     amenities := amenities d; minted := (minted d + 1)%N |}.

Definition store_create (propertyData : obj) (d : database) : value * database :=
  let doc := match get_field "_id" propertyData with
             | Some _ => propertyData
             | None => set_field "_id" (VOid (mint (minted d))) propertyData
             end in
  (VObj doc, bump (set_properties (properties d ++ [VObj doc])%list d)).

(** The first document that passes [p], taken out of the list. *)
Fixpoint take_first (p : value -> bool) (l : list value) : option (value * list value) :=
  match l with
  | [] => None
  | x :: rest =>
      if p x then Some (x, rest)
      else match take_first p rest with
           | Some (y, rest') => Some (y, x :: rest')
           | None => None
           end
  end.

(** The first document that passes [p], replaced by its image. *)
Fixpoint change_first (p : value -> bool) (f : value -> value) (l : list value)
  : option (value * list value) :=
  match l with
  | [] => None
  | x :: rest =>
      if p x then Some (f x, f x :: rest)
      else match change_first p f rest with
           | Some (y, rest') => Some (y, x :: rest')
           | None => None
           end
  end.

Definition store_delete (filter : obj) (d : database) : option value * database :=
  match take_first (selects filter) (properties d) with
  | Some (doc, rest) => (Some doc, set_properties rest d)
  | None => (None, d)
  end.

(** [{ $set: fields }] on a document: every listed field is assigned,
    under its name as it is written (a name is not read as a dotted
    path). *)
Definition apply_update (update : obj) (doc : value) : value :=
  match doc, get_field "$set" update with
  | VObj fields, Some (VObj changes) => VObj (assign fields changes)
  | _, _ => doc
  end.

Definition store_update (filter update : obj) (d : database) : option value * database :=
  match change_first (selects filter) (apply_update update) (properties d) with
  | Some (doc, l) => (Some doc, set_properties l d)
  | None => (None, d)
  end.

Global Arguments store_create : simpl never.
Global Arguments store_delete : simpl never.
Global Arguments store_update : simpl never.
Global Arguments evict : simpl never.

Section Queries.
Variable P : platform.

Definition queries_getProperties (findQuery : obj) : M (list value) :=
  _ ← record (queries_call "getProperties" [VObj findQuery]);
  with_db (fun d => (find_properties P findQuery (properties d), d)).

Definition queries_createProperty (propertyData : obj) : M value :=
  _ ← record (queries_call "createProperty" [VObj propertyData]);
  with_db (store_create propertyData).

Definition queries_getMyProperties (findQuery : obj) : M (list value) :=
  _ ← record (queries_call "getMyProperties" [VObj findQuery]);
  with_db (fun d => (List.filter (selects findQuery) (properties d), d)).

Definition queries_deleteProperty (deleteQuery : obj) : M (option value) :=
  _ ← record (queries_call "deleteProperty" [VObj deleteQuery]);
  with_db (store_delete deleteQuery).

Definition queries_updateProperty (updateQuery update : obj) : M (option value) :=
  _ ← record (queries_call "updateProperty" [VObj updateQuery; VObj update]);
  with_db (store_update updateQuery update).

Definition queries_reference (name : string) (pick : database -> list value) : M (list value) :=
  _ ← record (queries_call name []);
  with_db (fun d => (pick d, d)).

Definition queries_getCity := queries_reference "getCity" cities.
Definition queries_getState := queries_reference "getState" states.
Definition queries_getPropertyType := queries_reference "getPropertyType" propertyTypes.
Definition queries_getPropertyTag := queries_reference "getPropertyTag" propertyTags.
Definition queries_getAmenity := queries_reference "getAmenity" amenities.
End Queries.

(** ** The handlers *)

Record request := {
  req_query : query;
  req_body : obj;
  req_params_id : string;
  req_user_id : string
}.

(** How a handler ends: [res.status(s).json(body)] or [next(error)]. *)
Inductive reply :=
| Json (status : Z) (body : obj)
| Next (e : error).

(** [try { .. } catch (error) { next(error) }]. *)
Definition try_catch (body : M reply) (w : world) : reply * world :=
  match run body w with
  | (Ok r, w') => (r, w')
  | (Throw e, w') => (Next e, w')
  end.

Section Service.
Variable P : platform.

Definition getProperties (req : request) : world -> reply * world :=
  try_catch (
    findQuery ← lift (build_findQuery P (req_query req));
    let cacheKey := search_key P findQuery in
    cachedProperties ← redis_get cacheKey;
    match cachedProperties with
    | Some parsed =>
        mret (Json 200 [("message", VStr "Properties fetched successfully from cache");
                        ("properties", parsed)])
    | None =>
        result ← queries_getProperties P findQuery;
        _ ← redis_setex cacheKey (PROPERTY_CACHE_TTL P) (toJSON P (VArr result));
        mret (Json 200 [("message", VStr "Properties fetched successfully");
                        ("properties", VArr result)])
    end).

Definition postProperty (req : request) : world -> reply * world :=
  try_catch (
    now ← Date_now;
    let propertyData :=
      set_field "isVerified" (VBool false)
        (set_field "listerId" (VStr (req_user_id req))
           (set_field "id" (VStr (string_of_Z now)) (req_body req))) in
    result ← queries_createProperty propertyData;
    _ ← redis_del "properties:*";
    mret (Json 201 [("message", VStr "Property listed successfully");
                    ("property", result)])).

Definition getMyProperties (req : request) : world -> reply * world :=
  try_catch (
    listerId ← lift (new_ObjectId (req_user_id req));
    let findQuery := [("listerId", VOid listerId)] in
    let cacheKey := "myProperties:" ++ req_user_id req in
    cachedProperties ← redis_get cacheKey;
    match cachedProperties with
    | Some parsed =>
        mret (Json 200 [("message", VStr "My properties fetched successfully from cache");
                        ("properties", parsed)])
    | None =>
        myProperties ← queries_getMyProperties findQuery;
        _ ← redis_setex cacheKey (PROPERTY_CACHE_TTL P) (toJSON P (VArr myProperties));
        mret (Json 200 [("message", VStr "My properties fetched successfully");
                        ("properties", VArr myProperties)])
    end).

Definition deleteProperty (req : request) : world -> reply * world :=
  try_catch (
    let propertyId := req_params_id req in
    listerId ← lift (new_ObjectId (req_user_id req));
    let deleteQuery := [("_id", VStr propertyId); ("listerId", VOid listerId)] in
    deletedProperty ← queries_deleteProperty deleteQuery;
    match deletedProperty with
    | None =>
        mret (Json 404 [("message",
                VStr "Property not found or you don't have permission to delete it")])
    | Some doc =>
        _ ← redis_del "properties:*";
        _ ← redis_del ("myProperties:" ++ req_user_id req);
        mret (Json 200 [("message", VStr "Property deleted successfully");
                        ("property", doc)])
    end).

Definition updateProperty (req : request) : world -> reply * world :=
  try_catch (
    let propertyId := req_params_id req in
    let updateData := req_body req in
    _id ← lift (new_ObjectId propertyId);
    listerId ← lift (new_ObjectId (req_user_id req));
    let updateQuery := [("_id", VOid _id); ("listerId", VOid listerId)] in
    updatedProperty ← queries_updateProperty updateQuery [("$set", VObj updateData)];
    match updatedProperty with
    | None =>
        mret (Json 404 [("message",
                VStr "Property not found or you don't have permission to update it")])
    | Some doc =>
        _ ← redis_del "properties:*";
        _ ← redis_del ("myProperties:" ++ req_user_id req);
        mret (Json 200 [("message", VStr "Property updated successfully");
                        ("property", doc)])
    end).

(** The five reference lists repeat one body, with their own key,
    query, messages and property name. *)
Definition reference_list (cacheKey : string) (fetch : M (list value))
    (what field : string) : world -> reply * world :=
  try_catch (
    cachedList ← redis_get cacheKey;
    match cachedList with
    | Some parsed =>
        mret (Json 200 [("message", VStr (what ++ " fetched successfully from cache"));
                        (field, parsed)])
    | None =>
        list ← fetch;
        _ ← redis_setex cacheKey (CACHE_TTL P) (toJSON P (VArr list));
        mret (Json 200 [("message", VStr (what ++ " fetched successfully"));
                        (field, VArr list)])
    end).

Definition getCity (_ : request) := reference_list "cities" queries_getCity "Cities" "cities".
Definition getState (_ : request) := reference_list "states" queries_getState "States" "states".
Definition getPropertyType (_ : request) :=
  reference_list "propertyTypes" queries_getPropertyType "Property Types" "propertyTypes".
Definition getPropertyTag (_ : request) :=
  reference_list "propertyTags" queries_getPropertyTag "Property Tags" "propertyTags".
Definition getAmenity (_ : request) :=
  reference_list "amenities" queries_getAmenity "Amenities" "amenities".
End Service.


(** ** Array operators of the filter language

    MongoDB's reading of [{ attribute: { $all: [..] } }] and of
    [{ attribute: { $in: [..] } }] on an attribute that holds an array of
    identifiers: [$all] asks for every listed identifier (and selects
    nothing when none is listed), [$in] for at least one. *)

Definition contains (have : list value) (x : value) : bool := existsb (same_id x) have.

Definition meets (constraint attribute : value) : bool :=
  match constraint, attribute with
  | VObj [(op, VArr wanted)], VArr have =>
      if String.eqb op "$all" then
        negb (Nat.eqb (List.length wanted) 0) && forallb (contains have) wanted
      else if String.eqb op "$in" then existsb (contains have) wanted
      else false
  | _, _ => false
  end.

Definition set_amenityIds (x : option qval) (q : query) : query :=
  {| typeId := typeId q; stateId := stateId q; cityId := cityId q; title := title q;
     availableFrom := availableFrom q; minPrice := minPrice q; maxPrice := maxPrice q;
     minBedrooms := minBedrooms q; minBathrooms := minBathrooms q;
     minRating := minRating q; listingType := listingType q; furnished := furnished q;
     amenityIds := x; tagIds := tagIds q |}.

Definition set_tagIds (x : option qval) (q : query) : query :=
  {| typeId := typeId q; stateId := stateId q; cityId := cityId q; title := title q;
     availableFrom := availableFrom q; minPrice := minPrice q; maxPrice := maxPrice q;
     minBedrooms := minBedrooms q; minBathrooms := minBathrooms q;
     minRating := minRating q; listingType := listingType q; furnished := furnished q;
     amenityIds := amenityIds q; tagIds := x |}.

Definition set_availableFrom (x : option qval) (q : query) : query :=
  {| typeId := typeId q; stateId := stateId q; cityId := cityId q; title := title q;
     availableFrom := x; minPrice := minPrice q; maxPrice := maxPrice q;
     minBedrooms := minBedrooms q; minBathrooms := minBathrooms q;
     minRating := minRating q; listingType := listingType q; furnished := furnished q;
     amenityIds := amenityIds q; tagIds := tagIds q |}.

(** Two amenities, as identifiers. *)
Definition a1 : string := "aaaaaaaaaaaaaaaaaaaaaaa1".
Definition a2 : string := "aaaaaaaaaaaaaaaaaaaaaaa2".

Definition q_amenities : query :=
  set_amenityIds (Some (QArr [a1; a2])) no_query.

(** ** The cache-aside reads, as one protocol *)

Inductive reader :=
| GetProperties | GetMyProperties
| GetCity | GetState | GetPropertyType | GetPropertyTag | GetAmenity.

Definition serve (P : platform) (h : reader) : request -> world -> reply * world :=
  match h with
  | GetProperties => getProperties P
  | GetMyProperties => getMyProperties P
  | GetCity => getCity P
  | GetState => getState P
  | GetPropertyType => getPropertyType P
  | GetPropertyTag => getPropertyTag P
  | GetAmenity => getAmenity P
  end.

(** What a read settles before it turns to the cache: the key it
    derives, the query it would send to the persistence store with the
    list that query answers on the database, the TTL of its class and
    the name of the list in the response. *)
Record lookup := {
  key : string;
  query_name : string;
  query_args : list value;
  fresh : list value;
  ttl : Z;
  plural : string
}.

Definition plan (P : platform) (h : reader) (req : request) (d : database) : result lookup :=
  match h with
  | GetProperties =>
      findQuery ← build_findQuery P (req_query req);
      Ok {| key := "properties:" ++ JSON_stringify P (VObj findQuery);
            query_name := "getProperties"; query_args := [VObj findQuery];
            fresh := find_properties P findQuery (properties d);
            ttl := PROPERTY_CACHE_TTL P; plural := "properties" |}
  | GetMyProperties =>
      owner ← new_ObjectId (req_user_id req);
      Ok {| key := "myProperties:" ++ req_user_id req;
            query_name := "getMyProperties"; query_args := [VObj [("listerId", VOid owner)]];
            fresh := List.filter (selects [("listerId", VOid owner)]) (properties d);
            ttl := PROPERTY_CACHE_TTL P; plural := "properties" |}
  | GetCity =>
      Ok {| key := "cities"; query_name := "getCity"; query_args := [];
            fresh := cities d; ttl := CACHE_TTL P; plural := "cities" |}
  | GetState =>
      Ok {| key := "states"; query_name := "getState"; query_args := [];
            fresh := states d; ttl := CACHE_TTL P; plural := "states" |}
  | GetPropertyType =>
      Ok {| key := "propertyTypes"; query_name := "getPropertyType"; query_args := [];
            fresh := propertyTypes d; ttl := CACHE_TTL P; plural := "propertyTypes" |}
  | GetPropertyTag =>
      Ok {| key := "propertyTags"; query_name := "getPropertyTag"; query_args := [];
            fresh := propertyTags d; ttl := CACHE_TTL P; plural := "propertyTags" |}
  | GetAmenity =>
      Ok {| key := "amenities"; query_name := "getAmenity"; query_args := [];
            fresh := amenities d; ttl := CACHE_TTL P; plural := "amenities" |}
  end.

(** The world after the calls [cs] were issued and the cache became
    [m]. *)
Definition after (w : world) (cs : list call) (m : gmap string entry) : world :=
  {| cache := m; db := db w; clock := clock w; calls := (calls w ++ cs)%list |}.

Definition persistence_accesses (cs : list call) : nat :=
  List.length (List.filter (fun c => match c with queries_call _ _ => true | _ => false end) cs).

Definition populations (k : string) (cs : list call) : nat :=
  List.length (List.filter (fun c => match c with
                                     | redis_SETEX k' _ _ => String.eqb k k'
                                     | _ => false
                                     end) cs).

(** ** The writes *)

Inductive writer := PostProperty | UpdateProperty | DeleteProperty.

Definition perform (h : writer) : request -> world -> reply * world :=
  match h with
  | PostProperty => postProperty
  | UpdateProperty => updateProperty
  | DeleteProperty => deleteProperty
  end.

(** The write went through: the handler answered 200 or 201. *)
Definition succeeded (r : reply) : bool :=
  match r with
  | Json status _ => (status =? 200) || (status =? 201)
  | Next _ => false
  end.

(** A key of the property-search class. *)
Definition search_class (k : string) : bool := String.prefix "properties:" k.

(** Time passes between two requests. *)
Definition later (dt : Z) (w : world) : world :=
  {| cache := cache w; db := db w; clock := clock w + dt; calls := calls w |}.

(** ** Ownership

    A stored document bears the identifier [id]; it is owned by the
    lister [uid]. *)
Definition names (id : string) (doc : value) : bool :=
  match doc with
  | VObj fields =>
      match get_field "_id" fields with
      | Some v => same_id (VStr id) v
      | None => false
      end
  | _ => false
  end.

Definition owned_by (uid : string) (doc : value) : bool :=
  match doc with
  | VObj fields =>
      match get_field "listerId" fields with
      | Some v => same_id (VStr uid) v
      | None => false
      end
  | _ => false
  end.

(** The fixed message of the 404 answer of an owner-scoped write. *)
Definition not_found_or_forbidden (h : writer) : obj :=
  match h with
  | UpdateProperty =>
      [("message", VStr "Property not found or you don't have permission to update it")]
  | _ =>
      [("message", VStr "Property not found or you don't have permission to delete it")]
  end.

(** ** Sample data *)

Definition empty_db : database :=
  {| properties := []; cities := []; states := []; propertyTypes := [];
     propertyTags := []; amenities := []; minted := 0 |}.

Definition boot : world := {| cache := ∅; db := empty_db; clock := 1700000000000; calls := [] |}.

Definition alice : string := "64b7f0c2a1d3e4f5a6b7c8d9".
Definition bob : string := "64b7f0c2a1d3e4f5a6b7c8da".

Definition by_user (u : string) (body : obj) (id : string) : request :=
  {| req_query := no_query; req_body := body; req_params_id := id; req_user_id := u |}.


Definition q_cheap : query :=
  {| typeId := None; stateId := None; cityId := None; title := None;
     availableFrom := None; minPrice := None; maxPrice := Some (QStr "2000");
     minBedrooms := None; minBathrooms := None; minRating := None;
     listingType := None; furnished := None; amenityIds := None;
     tagIds := None |}.

Definition searching (q : query) : request :=
  {| req_query := q; req_body := []; req_params_id := ""; req_user_id := alice |}.

Definition warmed : world := snd (getProperties toy (searching q_cheap) boot).

Definition flat : obj := [("title", VStr "Flat"); ("price", VNum (NInt 1500))].

(** Alice reads her list, lists a flat, and reads her list again. *)
Definition alice_reads : request := by_user alice [] "".
Definition alice_lists : request := by_user alice flat "".

Definition after_first_read : world := snd (getMyProperties toy alice_reads boot).
Definition after_create : world := snd (postProperty alice_lists after_first_read).

(** Alice asks for a property by a text that is no identifier. *)
Definition alice_bad_id : request := by_user alice [("price", VNum (NInt 1))] "not-an-id".

(** Bob goes after Alice's flat, and after a property that does not
    exist. *)
Definition flat_id : string := "000000000000000000000000".
Definition bob_on_flat : request := by_user bob [("price", VNum (NInt 1))] flat_id.

(** Alice marks her flat verified and hands it to Bob through an
    update. *)
Definition alice_promotes : request :=
  by_user alice [("isVerified", VBool true); ("listerId", VStr bob)] flat_id.

Definition alices_flat : value :=
  VObj [("title", VStr "Flat"); ("price", VNum (NInt 1500));
        ("id", VStr "1700000000000"); ("listerId", VStr alice);
        ("isVerified", VBool false); ("_id", VOid (mint 0))].

(** A search with a date that no engine parses. *)
Definition q_bad_date : query := set_availableFrom (Some (QStr "not-a-date")) no_query.

(** ** Further notions used to state what the handlers do *)

(** A parameter given as the empty string, taken away. *)
Definition blank (p : option qval) : option qval :=
  match p with
  | Some (QStr EmptyString) => None
  | _ => p
  end.

Definition drop_empty (q : query) : query :=
  {| typeId := blank (typeId q); stateId := blank (stateId q); cityId := blank (cityId q);
     title := blank (title q); availableFrom := blank (availableFrom q);
     minPrice := blank (minPrice q); maxPrice := blank (maxPrice q);
     minBedrooms := blank (minBedrooms q); minBathrooms := blank (minBathrooms q);
     minRating := blank (minRating q); listingType := blank (listingType q);
     furnished := blank (furnished q); amenityIds := blank (amenityIds q);
     tagIds := blank (tagIds q) |}.

Definition with_query (q : query) (req : request) : request :=
  {| req_query := q; req_body := req_body req; req_params_id := req_params_id req;
     req_user_id := req_user_id req |}.

(** The ten handlers of the service. *)
Inductive endpoint :=
| Reading (h : reader)
| Writing (h : writer).

Definition handle (P : platform) (e : endpoint) : request -> world -> reply * world :=
  match e with
  | Reading h => serve P h
  | Writing h => perform h
  end.

(** The key of the caller's own list. *)
Definition own_key (req : request) : string := "myProperties:" ++ req_user_id req.

(** The three properties that a create sets itself. *)
Definition stamped (k : string) : bool :=
  String.eqb k "id" || String.eqb k "listerId" || String.eqb k "isVerified".

Definition is_query (c : call) : bool :=
  match c with
  | queries_call _ _ => true
  | _ => false
  end.

(** A search whose [typeId] is no identifier, and one that gives every
    other parameter as the empty string. *)
Definition q_bad_type : query :=
  {| typeId := Some (QStr "xyz"); stateId := None; cityId := None; title := None;
     availableFrom := None; minPrice := None; maxPrice := None;
     minBedrooms := None; minBathrooms := None; minRating := None;
     listingType := None; furnished := None; amenityIds := None;
     tagIds := None |}.

Definition mallory : string := "mallory".

(** Alice deletes her flat. *)
Definition alice_deletes : request := by_user alice [] "000000000000000000000000".

(** The [message] of an answer, and whether it says that the answer came
    from the cache. *)
Definition message_of (r : reply) : option string :=
  match r with
  | Json _ body =>
      match get_field "message" body with
      | Some (VStr m) => Some m
      | _ => None
      end
  | Next _ => None
  end.

Fixpoint ends_with (suffix s : string) : bool :=
  String.eqb suffix s
  || match s with
     | EmptyString => false
     | String _ s' => ends_with suffix s'
     end.

Definition says_from_cache (r : reply) : bool :=
  match message_of r with
  | Some m => ends_with " from cache" m
  | None => false
  end.
(** ** Definitions used in the proofs *)

(** The builder, step by step: every statement of lines 11-52 either
    leaves the filter alone or assigns one property. *)

Definition push (k : string) (o : option value) (fq : obj) : obj :=
  match o with
  | Some v => set_field k v fq
  | None => fq
  end.

Definition asked {A} (f : qval -> option A) (p : option qval) : option A :=
  match p with
  | Some x => if truthy p then f x else None
  | None => None
  end.

Definition oid_value (x : qval) : option value :=
  match ObjectId_of x with
  | Ok o => Some (VOid o)
  | Throw _ => None
  end.

Definition all_value (p : option qval) : option value :=
  match processed p with
  | Some l =>
      match map_result new_ObjectId l with
      | Ok oids => Some (VObj [("$all", VArr (map VOid oids))])
      | Throw _ => None
      end
  | None => None
  end.

Definition rows (P : platform) (q : query) : obj :=
  push "tagIds" (all_value (tagIds q))
  (push "amenityIds" (all_value (amenityIds q))
  (push "furnished" (asked (Some ∘ value_of) (furnished q))
  (push "listingType" (asked (Some ∘ value_of) (listingType q))
  (push "rating" (asked (fun x => Some (VObj [("$gte", VNum (Number x))])) (minRating q))
  (push "bathrooms" (asked (fun x => Some (VObj [("$gte", VNum (Number x))])) (minBathrooms q))
  (push "bedrooms" (asked (fun x => Some (VObj [("$gte", VNum (Number x))])) (minBedrooms q))
  (push "price" (if truthy (minPrice q) || truthy (maxPrice q)
                 then Some (VObj (price_range q)) else None)
  (push "availableFrom" (asked (fun x => Some (VObj [("$lte", new_Date P x)])) (availableFrom q))
  (push "title" (asked (fun x => Some (VObj [("$regex", value_of x); ("$options", VStr "i")])) (title q))
  (push "cityId" (asked oid_value (cityId q))
  (push "stateId" (asked oid_value (stateId q))
  (push "typeId" (asked oid_value (typeId q)) [])))))))))))).

(** ** Properties of the filter builder *)

Lemma get_set_field k' k v fq :
  get_field k' (set_field k v fq) = if String.eqb k' k then Some v else get_field k' fq.
Proof.
  induction fq as [|[k0 v0] fq IH]; simpl.
  - reflexivity.
  - destruct (String.eqb k k0) eqn:E; simpl.
    + apply String.eqb_eq in E. subst k0.
      destruct (String.eqb k' k); reflexivity.
    + rewrite IH. destruct (String.eqb k' k0) eqn:E0; [|reflexivity].
      apply String.eqb_eq in E0. subst k0.
      destruct (String.eqb k' k) eqn:E1; [|reflexivity].
      apply String.eqb_eq in E1. subst. rewrite String.eqb_refl in E. discriminate.
Qed.

Lemma keys_set_field k v fq :
  keys (set_field k v fq) = if existsb (String.eqb k) (keys fq) then keys fq else (keys fq ++ [k])%list.
Proof.
  induction fq as [|[k0 v0] fq IH]; simpl; [reflexivity|].
  destruct (String.eqb k k0) eqn:E; simpl.
  - apply String.eqb_eq in E. subst. reflexivity.
  - unfold keys in *. rewrite IH. destruct (existsb _ _); reflexivity.
Qed.

Lemma NoDup_keys_set_field k v fq : NoDup (keys fq) -> NoDup (keys (set_field k v fq)).
Proof.
  intros H. rewrite keys_set_field.
  destruct (existsb (String.eqb k) (keys fq)) eqn:E; [exact H|].
  apply NoDup_app. split; [exact H|]. split.
  - intros x Hx Hk. apply list_elem_of_singleton in Hk. subst x.
    assert (existsb (String.eqb k) (keys fq) = true); [|congruence].
    apply existsb_exists. exists k. split; [|apply String.eqb_refl].
    apply list_elem_of_In. exact Hx.
  - apply NoDup_singleton.
Qed.

Lemma new_ObjectId_valid s :
  ObjectId_isValid s = true -> new_ObjectId s = Ok (mkObjectId (string_map lower_ascii s)).
Proof. intros H. unfold new_ObjectId. rewrite H. reflexivity. Qed.

Lemma new_ObjectId_invalid s :
  ObjectId_isValid s = false -> new_ObjectId s = Throw InvalidReference.
Proof. intros H. unfold new_ObjectId. rewrite H. reflexivity. Qed.

Lemma when_given_id k p fq :
  when_given p (fun x fq => o ← ObjectId_of x; put k (VOid o) fq) fq
  = if ok_id p then Ok (push k (asked oid_value p) fq) else Throw InvalidReference.
Proof.
  destruct p as [[s|items]|]; simpl; try reflexivity.
  destruct (String.eqb s "") eqn:E; simpl; [reflexivity|].
  unfold oid_value. simpl.
  destruct (ObjectId_isValid s) eqn:V.
  - rewrite (new_ObjectId_valid s V). reflexivity.
  - rewrite (new_ObjectId_invalid s V). reflexivity.
Qed.

Lemma when_given_pure k f p fq :
  when_given p (put k ∘ f) fq = Ok (push k (asked (Some ∘ f) p) fq).
Proof.
  destruct p as [x|]; [|reflexivity].
  unfold when_given, asked. destruct (truthy (Some x)); reflexivity.
Qed.

Lemma map_result_ObjectId l :
  map_result new_ObjectId l
  = if forallb ObjectId_isValid l
    then Ok (map (fun s => mkObjectId (string_map lower_ascii s)) l)
    else Throw InvalidReference.
Proof.
  induction l as [|s l IH]; simpl; [reflexivity|].
  destruct (ObjectId_isValid s) eqn:V; simpl.
  - rewrite (new_ObjectId_valid s V). simpl. rewrite IH.
    destruct (forallb ObjectId_isValid l); reflexivity.
  - rewrite (new_ObjectId_invalid s V). reflexivity.
Qed.

Lemma put_all_ids k p fq :
  put_all k (processed p) fq
  = if ok_ids p then Ok (push k (all_value p) fq) else Throw InvalidReference.
Proof.
  unfold all_value.
  destruct p as [[s|items]|]; simpl; [| |reflexivity].
  - destruct (String.eqb s "") eqn:E; simpl; [reflexivity|].
    destruct (ObjectId_isValid s) eqn:V.
    + rewrite (new_ObjectId_valid s V). reflexivity.
    + rewrite (new_ObjectId_invalid s V). reflexivity.
  - rewrite (map_result_ObjectId items).
    destruct (forallb ObjectId_isValid items); reflexivity.
Qed.

Lemma put_push k v fq : put k v fq = Ok (push k (Some v) fq).
Proof. reflexivity. Qed.

(** The builder fails on a malformed identifier and on nothing else. *)
Lemma build_findQuery_cases P q :
  build_findQuery P q
  = if valid_query q then Ok (rows P q) else Throw InvalidReference.
Proof.
  unfold valid_query, build_findQuery, rows.
  rewrite !when_given_id.
  destruct (ok_id (typeId q)); [|reflexivity].
  cbn [mbind result_bind andb]. rewrite !when_given_id.
  destruct (ok_id (stateId q)); [|reflexivity].
  cbn [mbind result_bind andb]. rewrite !when_given_id.
  destruct (ok_id (cityId q)); [|reflexivity].
  cbn [mbind result_bind andb].
  destruct (truthy (minPrice q) || truthy (maxPrice q));
    repeat first
      [ rewrite when_given_pure
      | rewrite (put_push "price")
      | progress (cbn [mbind result_bind]) ];
    rewrite !put_all_ids;
    (destruct (ok_ids (amenityIds q)); [|reflexivity]);
    cbn [mbind result_bind andb]; rewrite !put_all_ids;
    (destruct (ok_ids (tagIds q)); reflexivity).
Qed.

Lemma build_findQuery_rows P q :
  valid_query q = true -> build_findQuery P q = Ok (rows P q).
Proof. intros H. rewrite build_findQuery_cases, H. reflexivity. Qed.

Lemma get_field_push k' k o fq :
  get_field k' (push k o fq)
  = if String.eqb k' k
    then match o with Some v => Some v | None => get_field k' fq end
    else get_field k' fq.
Proof.
  destruct o as [v|]; simpl.
  - rewrite get_set_field. destruct (String.eqb k' k); reflexivity.
  - destruct (String.eqb k' k); reflexivity.
Qed.

Lemma NoDup_keys_push k o fq : NoDup (keys fq) -> NoDup (keys (push k o fq)).
Proof. destruct o; simpl; [apply NoDup_keys_set_field | trivial]. Qed.

Lemma NoDup_keys_rows P q : NoDup (keys (rows P q)).
Proof. unfold rows. repeat apply NoDup_keys_push. apply NoDup_nil_2. Qed.

Lemma truthy_present p : truthy p = true <-> exists x, present p x.
Proof.
  unfold present. split.
  - destruct p as [[s|items]|]; simpl; intros H; try discriminate.
    + exists (QStr s). split; [reflexivity|]. intros [= ->]. discriminate.
    + exists (QArr items). split; [reflexivity | discriminate].
  - intros (x & -> & Hx). destruct x as [s|items]; simpl; [|reflexivity].
    destruct (String.eqb s "") eqn:E; [|reflexivity].
    apply String.eqb_eq in E. subst. congruence.
Qed.

Lemma asked_present {A} (f : qval -> option A) p v :
  asked f p = Some v <-> exists x, present p x /\ f x = Some v.
Proof.
  unfold asked. split.
  - destruct p as [x|]; [|discriminate].
    destruct (truthy (Some x)) eqn:E; [|discriminate].
    intros H. apply truthy_present in E as (y & Hy). pose proof Hy as [[= <-] _]. eauto.
  - intros (x & Hx & Hf). pose proof Hx as [-> _].
    assert (truthy (Some x) = true) as -> by (apply truthy_present; eauto).
    exact Hf.
Qed.

Lemma processed_listed p l : processed p = Some l <-> listed p l.
Proof.
  split.
  - destruct p as [[s|items]|]; simpl; try discriminate.
    + destruct (String.eqb s "") eqn:E; simpl; [discriminate|].
      intros [= <-]. constructor. intros ->. discriminate.
    + intros [= <-]. constructor.
  - intros [s Hs|items]; simpl; [|reflexivity].
    destruct (String.eqb s "") eqn:E; [|reflexivity].
    apply String.eqb_eq in E. contradiction.
Qed.

Lemma all_value_listed p v :
  all_value p = Some v <->
  exists l oids, listed p l /\ map_result new_ObjectId l = Ok oids
                 /\ v = VObj [("$all", VArr (map VOid oids))].
Proof.
  unfold all_value. split.
  - destruct (processed p) as [l|] eqn:E; [|discriminate].
    apply processed_listed in E.
    destruct (map_result new_ObjectId l) as [oids|] eqn:M; [|discriminate].
    intros [= <-]. eauto.
  - intros (l & oids & Hl & M & ->). apply processed_listed in Hl.
    rewrite Hl, M. reflexivity.
Qed.

Lemma price_range_bounds q :
  price_range q = (bound "$gte" (minPrice q) ++ bound "$lte" (maxPrice q))%list.
Proof.
  unfold price_range, bound.
  destruct (minPrice q) as [x|], (maxPrice q) as [y|];
    repeat match goal with |- context [truthy ?p] => destruct (truthy p) end;
    reflexivity.
Qed.

Ltac eval_key_tests :=
  cbn [String.eqb Ascii.eqb Bool.eqb andb get_field].

Ltac eval_key_tests_in H :=
  cbn [String.eqb Ascii.eqb Bool.eqb andb get_field] in H.

Lemma rows_sound P q k v : get_field k (rows P q) = Some v -> constrains P q k v.
Proof.
  unfold rows. rewrite !get_field_push. intros H.
  repeat match type of H with
  | (if String.eqb k ?c then _ else _) = _ =>
      destruct (String.eqb k c) eqn:E;
      [ apply String.eqb_eq in E; subst k; eval_key_tests_in H | clear E ]
  end; try discriminate.
  - destruct (all_value (tagIds q)) as [w|] eqn:W; [|discriminate].
    injection H as <-. apply all_value_listed in W as (l & oids & ? & ? & ->).
    eapply by_tagIds; eauto.
  - destruct (all_value (amenityIds q)) as [w|] eqn:W; [|discriminate].
    injection H as <-. apply all_value_listed in W as (l & oids & ? & ? & ->).
    eapply by_amenityIds; eauto.
  - destruct (asked _ (furnished q)) as [w|] eqn:W; [|discriminate].
    injection H as <-. apply asked_present in W as (x & ? & [= <-]).
    apply by_furnished; assumption.
  - destruct (asked _ (listingType q)) as [w|] eqn:W; [|discriminate].
    injection H as <-. apply asked_present in W as (x & ? & [= <-]).
    apply by_listingType; assumption.
  - destruct (asked _ (minRating q)) as [w|] eqn:W; [|discriminate].
    injection H as <-. apply asked_present in W as (x & ? & [= <-]).
    apply by_minRating; assumption.
  - destruct (asked _ (minBathrooms q)) as [w|] eqn:W; [|discriminate].
    injection H as <-. apply asked_present in W as (x & ? & [= <-]).
    apply by_minBathrooms; assumption.
  - destruct (asked _ (minBedrooms q)) as [w|] eqn:W; [|discriminate].
    injection H as <-. apply asked_present in W as (x & ? & [= <-]).
    apply by_minBedrooms; assumption.
  - destruct (truthy (minPrice q) || truthy (maxPrice q)) eqn:W; [|discriminate].
    injection H as <-. rewrite price_range_bounds. apply by_price.
    apply orb_true_iff in W as [W|W]; apply truthy_present in W; auto.
  - destruct (asked _ (availableFrom q)) as [w|] eqn:W; [|discriminate].
    injection H as <-. apply asked_present in W as (x & ? & [= <-]).
    apply by_availableFrom; assumption.
  - destruct (asked _ (title q)) as [w|] eqn:W; [|discriminate].
    injection H as <-. apply asked_present in W as (x & ? & [= <-]).
    apply by_title; assumption.
  - destruct (asked _ (cityId q)) as [w|] eqn:W; [|discriminate].
    injection H as <-. apply asked_present in W as (x & ? & Hx).
    unfold oid_value in Hx. destruct (ObjectId_of x) as [o|] eqn:O; [|discriminate].
    injection Hx as <-. eapply by_cityId; eauto.
  - destruct (asked _ (stateId q)) as [w|] eqn:W; [|discriminate].
    injection H as <-. apply asked_present in W as (x & ? & Hx).
    unfold oid_value in Hx. destruct (ObjectId_of x) as [o|] eqn:O; [|discriminate].
    injection Hx as <-. eapply by_stateId; eauto.
  - destruct (asked _ (typeId q)) as [w|] eqn:W; [|discriminate].
    injection H as <-. apply asked_present in W as (x & ? & Hx).
    unfold oid_value in Hx. destruct (ObjectId_of x) as [o|] eqn:O; [|discriminate].
    injection Hx as <-. eapply by_typeId; eauto.
Qed.

Lemma rows_complete P q k v : constrains P q k v -> get_field k (rows P q) = Some v.
Proof.
  intros H. unfold rows. rewrite !get_field_push.
  destruct H as [x o Hx Ho|x o Hx Ho|x o Hx Ho|x Hx|x Hx|Hp|x Hx|x Hx|x Hx|x Hx|x Hx
                 |l oids Hl Ho|l oids Hl Ho];
    eval_key_tests.
  all: try (erewrite (proj2 (asked_present _ _ _));
            [reflexivity | exists x; split; [exact Hx|]; unfold oid_value; try rewrite Ho; reflexivity]).
  - assert (truthy (minPrice q) || truthy (maxPrice q) = true) as ->.
    { apply orb_true_iff. destruct Hp as [Hp|Hp]; apply truthy_present in Hp; auto. }
    rewrite price_range_bounds. reflexivity.
  - erewrite (proj2 (all_value_listed _ _)); [reflexivity|]. eauto.
  - erewrite (proj2 (all_value_listed _ _)); [reflexivity|]. eauto.
Qed.


(** C3.  For every combination of query parameters whose identifiers are
    well formed, the builder returns a filter with pairwise distinct
    keys in which an attribute carries a constraint exactly when the
    rule of a parameter that is present asks for it, and that constraint
    is the one the rule gives; nothing else is in the filter.  The query
    [minPrice=1000, maxPrice=2000, minBedrooms=2] yields
    [{price: {$gte: 1000, $lte: 2000}, bedrooms: {$gte: 2}}], and the
    query without parameters yields the empty filter. *)
Theorem filter_exact (P : platform) :
  (forall q, valid_query q = true ->
     exists findQuery,
       build_findQuery P q = Ok findQuery
       /\ NoDup (keys findQuery)
       /\ forall k v, get_field k findQuery = Some v <-> constrains P q k v)
  /\ build_findQuery P q_example
     = Ok [("price", VObj [("$gte", VNum (NInt 1000)); ("$lte", VNum (NInt 2000))]);
           ("bedrooms", VObj [("$gte", VNum (NInt 2))])]
  /\ build_findQuery P no_query = Ok [].
Proof.
  split; [|split; reflexivity].
  intros q Hq. exists (rows P q). split; [|split].
  - apply build_findQuery_rows, Hq.
  - apply NoDup_keys_rows.
  - intros k v. split; [apply rows_sound | apply rows_complete].
Qed.

Lemma filter_exact_witness :
  valid_query q_example = true
  /\ exists findQuery,
       build_findQuery toy q_example = Ok findQuery
       /\ NoDup (keys findQuery)
       /\ forall k v, get_field k findQuery = Some v <-> constrains toy q_example k v.
Proof.
  split; [reflexivity|].
  exact (proj1 (filter_exact toy) q_example eq_refl).
Defined.

(** ** Amenities and tags *)

Ltac project_query :=
  cbn [set_amenityIds set_tagIds set_availableFrom typeId stateId cityId title
       availableFrom minPrice maxPrice minBedrooms minBathrooms minRating
       listingType furnished amenityIds tagIds].

Lemma processed_single s : s <> "" -> processed (Some (QStr s)) = processed (Some (QArr [s])).
Proof.
  intros Hs. simpl. destruct (String.eqb s "") eqn:E; [|reflexivity].
  apply String.eqb_eq in E. contradiction.
Qed.

Lemma meets_all_contains wanted have :
  meets (VObj [("$all", VArr wanted)]) (VArr have) = true ->
  Forall (fun x => contains have x = true) wanted.
Proof.
  simpl. intros H. apply andb_true_iff in H as [_ H].
  apply Forall_forall. intros x Hx. rewrite forallb_forall in H. apply H, list_elem_of_In, Hx.
Qed.

Lemma get_amenityIds_rows P q : get_field "amenityIds" (rows P q) = all_value (amenityIds q).
Proof.
  unfold rows. rewrite !get_field_push. eval_key_tests.
  destruct (all_value (amenityIds q)); reflexivity.
Qed.

Lemma get_tagIds_rows P q : get_field "tagIds" (rows P q) = all_value (tagIds q).
Proof.
  unfold rows. rewrite !get_field_push. eval_key_tests.
  destruct (all_value (tagIds q)); reflexivity.
Qed.

Lemma listed_constraint P q findQuery k p l :
  build_findQuery P q = Ok findQuery ->
  get_field k (rows P q) = all_value p ->
  listed p l ->
  ok_ids p = true ->
  exists oids,
    map_result new_ObjectId l = Ok oids
    /\ get_field k findQuery = Some (VObj [("$all", VArr (map VOid oids))]).
Proof.
  intros Hb Hk Hl Hp.
  rewrite build_findQuery_cases in Hb.
  destruct (valid_query q); [|discriminate]. injection Hb as <-.
  apply processed_listed in Hl.
  assert (forallb ObjectId_isValid l = true) as Hv.
  { destruct p as [[s|items]|]; simpl in *; try discriminate.
    - destruct (String.eqb s ""); simpl in *; [discriminate|].
      injection Hl as <-. simpl. rewrite Hp. reflexivity.
    - injection Hl as <-. exact Hp. }
  exists (map (fun s => mkObjectId (string_map lower_ascii s)) l).
  rewrite Hk. unfold all_value. rewrite Hl, map_result_ObjectId, Hv. split; reflexivity.
Qed.

Lemma build_ok_valid P q findQuery :
  build_findQuery P q = Ok findQuery -> valid_query q = true.
Proof.
  rewrite build_findQuery_cases. destruct (valid_query q); [reflexivity | discriminate].
Qed.

(** C8.  A single string given for [amenityIds] (resp. [tagIds]) builds
    the same filter as the one-element list of that string; whenever
    the builder returns, the identifiers listed for the parameter are all
    parsed and the filter constrains the attribute by [$all] over them,
    which a property meets only if its array holds every one of them;
    holding one of several listed identifiers is not enough. *)
Theorem amenity_tag_containment (P : platform) (q : query) :
  (forall s, s <> "" ->
     build_findQuery P (set_amenityIds (Some (QStr s)) q)
     = build_findQuery P (set_amenityIds (Some (QArr [s])) q)
     /\ build_findQuery P (set_tagIds (Some (QStr s)) q)
        = build_findQuery P (set_tagIds (Some (QArr [s])) q))
  /\ (forall findQuery k l,
        build_findQuery P q = Ok findQuery ->
        (k = "amenityIds" /\ listed (amenityIds q) l)
        \/ (k = "tagIds" /\ listed (tagIds q) l) ->
        exists oids,
          map_result new_ObjectId l = Ok oids
          /\ get_field k findQuery = Some (VObj [("$all", VArr (map VOid oids))])
          /\ forall have,
               meets (VObj [("$all", VArr (map VOid oids))]) (VArr have) = true ->
               Forall (fun o => contains have (VOid o) = true) oids)
  /\ (exists o1 o2,
        new_ObjectId a1 = Ok o1 /\ new_ObjectId a2 = Ok o2
        /\ meets (VObj [("$in", VArr [VOid o1; VOid o2])]) (VArr [VOid o1]) = true
        /\ meets (VObj [("$all", VArr [VOid o1; VOid o2])]) (VArr [VOid o1]) = false).
Proof.
  split; [|split].
  - intros s Hs. unfold build_findQuery. project_query.
    rewrite (processed_single s Hs). split; reflexivity.
  - intros findQuery k l Hb Hk.
    pose proof (build_ok_valid P q findQuery Hb) as Hv.
    unfold valid_query in Hv. repeat (apply andb_true_iff in Hv as [Hv ?]).
    assert (exists oids, map_result new_ObjectId l = Ok oids
              /\ get_field k findQuery = Some (VObj [("$all", VArr (map VOid oids))]))
      as (oids & Hm & Hg).
    { destruct Hk as [[-> Hl]|[-> Hl]].
      - eapply listed_constraint; eauto using get_amenityIds_rows.
      - eapply listed_constraint; eauto using get_tagIds_rows. }
    exists oids. split; [exact Hm|]. split; [exact Hg|].
    intros have Hmeets. apply meets_all_contains in Hmeets.
    rewrite Forall_forall in Hmeets. apply Forall_forall. intros o Ho.
    apply Hmeets. apply list_elem_of_fmap. exists o. split; [reflexivity | exact Ho].
  - eexists _, _. repeat split; reflexivity.
Qed.

Lemma amenity_tag_containment_witness :
  exists oids,
    map_result new_ObjectId [a1; a2] = Ok oids
    /\ get_field "amenityIds"
         [("amenityIds", VObj [("$all", VArr (map VOid oids))])]
       = Some (VObj [("$all", VArr (map VOid oids))])
    /\ forall have,
         meets (VObj [("$all", VArr (map VOid oids))]) (VArr have) = true ->
         Forall (fun o => contains have (VOid o) = true) oids.
Proof.
  destruct (proj1 (proj2 (amenity_tag_containment toy q_amenities))
              [("amenityIds",
                VObj [("$all", VArr [VOid (mkObjectId a1); VOid (mkObjectId a2)])])]
              "amenityIds" [a1; a2] eq_refl
              (or_introl (conj eq_refl (listed_many [a1; a2]))))
    as (oids & Hm & Hg & Hall).
  exists oids. injection Hm as <-. split; [reflexivity|]. split; [reflexivity|]. exact Hall.
Defined.

(** ** The read path *)

(** A read that cannot derive its key ends in [next(error)] before it
    issues any call. *)
Lemma serve_throw P h req w e :
  plan P h req (db w) = Throw e -> serve P h req w = (Next e, w).
Proof.
  destruct h; simpl; try discriminate.
  - destruct (build_findQuery P (req_query req)) as [fq|e'] eqn:B; [discriminate|].
    intros [= ->]. unfold getProperties, try_catch. simpl. rewrite B. reflexivity.
  - destruct (new_ObjectId (req_user_id req)) as [o|e'] eqn:B; [discriminate|].
    intros [= ->]. unfold getMyProperties, try_catch. simpl. rewrite B. reflexivity.
Qed.

(** C4.  Every cache-aside read (property search, my-properties and the
    five reference lists) that gets as far as deriving its key behaves
    as follows.  If the key is present in the cache, the handler answers
    200 with the cached value after a single [GET]: no call goes to the
    persistence store and neither store changes.  If the key is absent,
    the handler issues [GET], then exactly one query to the persistence
    store, then exactly one [SETEX] under the derived key with the TTL of
    its class, and answers 200 with the list just fetched. *)
Theorem cache_aside (P : platform) (h : reader) (req : request) (w : world) (p : lookup) :
  plan P h req (db w) = Ok p ->
  (forall parsed,
     cached w (key p) = Some parsed ->
     exists message,
       serve P h req w
       = (Json 200 [("message", VStr message); (plural p, parsed)],
          after w [redis_GET (key p)] (cache w))
       /\ persistence_accesses [redis_GET (key p)] = 0%nat)
  /\ (cached w (key p) = None ->
      exists message,
        let text := toJSON P (VArr (fresh p)) in
        let issued := [redis_GET (key p);
                       queries_call (query_name p) (query_args p);
                       redis_SETEX (key p) (ttl p) text] in
        serve P h req w
        = (Json 200 [("message", VStr message); (plural p, VArr (fresh p))],
           after w issued
             (<[key p := {| payload := text; expires := clock w + 1000 * ttl p |}]> (cache w)))
        /\ persistence_accesses issued = 1%nat
        /\ populations (key p) issued = 1%nat).
Proof.
  intros Hp.
  split.
  - intros parsed Hc.
    destruct h; simpl in Hp;
      try (destruct (build_findQuery P (req_query req)) as [fq|] eqn:B; [|discriminate]);
      try (destruct (new_ObjectId (req_user_id req)) as [owner|] eqn:B; [|discriminate]);
      injection Hp as <-; cbn [key plural] in *;
      unfold serve, getProperties, getMyProperties, getCity, getState, getPropertyType,
             getPropertyTag, getAmenity, reference_list, try_catch, search_key;
      simpl; try rewrite B; simpl;
      unfold cached in *; cbn [cache clock]; rewrite Hc; simpl;
      eexists; split; reflexivity.
  - intros Hc.
    destruct h; simpl in Hp;
      try (destruct (build_findQuery P (req_query req)) as [fq|] eqn:B; [|discriminate]);
      try (destruct (new_ObjectId (req_user_id req)) as [owner|] eqn:B; [|discriminate]);
      injection Hp as <-; cbn [key plural fresh ttl query_name query_args] in *;
      unfold serve, getProperties, getMyProperties, getCity, getState, getPropertyType,
             getPropertyTag, getAmenity, reference_list, try_catch, search_key;
      simpl; try rewrite B; simpl;
      unfold cached in *; cbn [cache clock]; rewrite Hc; simpl;
      unfold after; rewrite <- !app_assoc; simpl;
      (eexists; split; [reflexivity|]);
      unfold populations; simpl; try rewrite String.eqb_refl; split; reflexivity.
Qed.

Lemma cache_aside_witness :
  exists message,
    serve toy GetCity (by_user alice [] "") boot
    = (Json 200 [("message", VStr message); ("cities", VArr [])],
       after boot [redis_GET "cities"; queries_call "getCity" [];
                   redis_SETEX "cities" 3600 (VArr [])]
         (<["cities" := {| payload := VArr []; expires := clock boot + 1000 * 3600 |}]>
            (cache boot)))
    /\ persistence_accesses [redis_GET "cities"; queries_call "getCity" [];
                             redis_SETEX "cities" 3600 (VArr [])] = 1%nat
    /\ populations "cities" [redis_GET "cities"; queries_call "getCity" [];
                             redis_SETEX "cities" 3600 (VArr [])] = 1%nat.
Proof.
  exact (proj2 (cache_aside toy GetCity (by_user alice [] "") boot _ eq_refl) eq_refl).
Defined.

(** ** Invalidation *)

Lemma glob_star key : glob "*" key = true.
Proof. induction key as [|c key IH]; [reflexivity|]. simpl in *. rewrite IH. reflexivity. Qed.

(** A pattern made of a text without [*] followed by [*] selects the
    keys that start with the text. *)
Lemma glob_prefix (p key : string) :
  string_forallb (fun c => negb (Ascii.eqb c "*")) p = true ->
  glob (p ++ "*") key = String.prefix p key.
Proof.
  revert key. induction p as [|c p IH]; intros key Hp.
  - change ("" ++ "*") with "*". rewrite glob_star. destruct key; reflexivity.
  - simpl in Hp. apply andb_true_iff in Hp as [Hc Hp].
    apply negb_true_iff in Hc.
    change (String c p ++ "*") with (String c (p ++ "*")).
    cbn [glob]. rewrite Hc.
    destruct key as [|d key]; [reflexivity|].
    rewrite (IH key Hp). cbn [String.prefix].
    destruct (Ascii.eqb c d) eqn:E.
    + apply Ascii.eqb_eq in E. subst d.
      destruct (ascii_dec c c); [reflexivity | congruence].
    + destruct (ascii_dec c d) as [->|]; [|reflexivity].
      rewrite Ascii.eqb_refl in E. discriminate.
Qed.

Lemma glob_properties key : glob "properties:*" key = search_class key.
Proof. apply (glob_prefix "properties:"). reflexivity. Qed.

Lemma lookup_evict pat (m : gmap string entry) k :
  evict pat m !! k = if glob pat k then None else m !! k.
Proof.
  unfold evict. destruct (glob pat k) eqn:G.
  - apply map_lookup_filter_None. right. intros e _. simpl. congruence.
  - destruct (m !! k) as [e|] eqn:L.
    + apply map_lookup_filter_Some. split; [exact L | exact G].
    + apply map_lookup_filter_None. left. exact L.
Qed.

Lemma search_key_class P findQuery : search_class (search_key P findQuery) = true.
Proof. reflexivity. Qed.

Lemma getProperties_miss P req w findQuery :
  build_findQuery P (req_query req) = Ok findQuery ->
  cached w (search_key P findQuery) = None ->
  let found := find_properties P findQuery (properties (db w)) in
  getProperties P req w
  = (Json 200 [("message", VStr "Properties fetched successfully");
               ("properties", VArr found)],
     after w [redis_GET (search_key P findQuery);
              queries_call "getProperties" [VObj findQuery];
              redis_SETEX (search_key P findQuery) (PROPERTY_CACHE_TTL P)
                (toJSON P (VArr found))]
       (<[search_key P findQuery :=
            {| payload := toJSON P (VArr found);
               expires := clock w + 1000 * PROPERTY_CACHE_TTL P |}]> (cache w))).
Proof.
  intros B Hc. unfold getProperties, try_catch. simpl. rewrite B. simpl.
  unfold cached in *. cbn [cache clock]. rewrite Hc. simpl.
  unfold after. rewrite <- !app_assoc. reflexivity.
Qed.

Lemma getProperties_throw P req w e :
  build_findQuery P (req_query req) = Throw e -> getProperties P req w = (Next e, w).
Proof.
  intros B. unfold getProperties, try_catch. simpl. rewrite B. reflexivity.
Qed.

Lemma cached_absent w k : cache w !! k = None -> cached w k = None.
Proof. intros H. unfold cached. rewrite H. reflexivity. Qed.

(** What a write that went through leaves of the cache. *)
Lemma perform_cache h req w r w' :
  perform h req w = (r, w') ->
  succeeded r = true ->
  clock w' = clock w
  /\ (cache w' = evict "properties:*" (cache w)
      \/ cache w' = evict ("myProperties:" ++ req_user_id req)
                      (evict "properties:*" (cache w))).
Proof.
  destruct h; unfold perform.
  - unfold postProperty, try_catch. simpl.
    intros [= <- <-] _. split; [reflexivity | left; reflexivity].
  - unfold updateProperty, try_catch. cbn.
    destruct (new_ObjectId (req_params_id req)) as [pid|]; cbn;
      [|intros [= <- <-]; discriminate].
    destruct (new_ObjectId (req_user_id req)) as [uid|]; cbn;
      [|intros [= <- <-]; discriminate].
    match goal with |- context [store_update ?a ?b ?c] =>
      destruct (store_update a b c) as [[doc|] d] end; cbn;
      intros [= <- <-]; [|discriminate].
    intros _. split; [reflexivity | right; reflexivity].
  - unfold deleteProperty, try_catch. cbn.
    destruct (new_ObjectId (req_user_id req)) as [uid|]; cbn;
      [|intros [= <- <-]; discriminate].
    match goal with |- context [store_delete ?a ?b] =>
      destruct (store_delete a b) as [[doc|] d] end; cbn;
      intros [= <- <-]; [|discriminate].
    intros _. split; [reflexivity | right; reflexivity].
Qed.

(** C1.  After a create, update or delete that went through, no key of
    the property-search class is left in the cache, so a search issued
    right after the write never answers from an entry cached before it:
    either its filter cannot be built and it ends in [next(error)], or
    it misses the cache, queries the persistence store and answers with
    what the store holds after the write. *)
Theorem writes_invalidate_search (P : platform) (h : writer) (req : request)
    (w w' : world) (r : reply) :
  perform h req w = (r, w') ->
  succeeded r = true ->
  (forall k, search_class k = true -> cache w' !! k = None)
  /\ forall sreq,
       match build_findQuery P (req_query sreq) with
       | Ok findQuery =>
           let found := find_properties P findQuery (properties (db w')) in
           exists w'',
             getProperties P sreq w'
             = (Json 200 [("message", VStr "Properties fetched successfully");
                          ("properties", VArr found)], w'')
             /\ calls w''
                = (calls w' ++ [redis_GET (search_key P findQuery);
                                queries_call "getProperties" [VObj findQuery];
                                redis_SETEX (search_key P findQuery) (PROPERTY_CACHE_TTL P)
                                  (toJSON P (VArr found))])%list
       | Throw e => getProperties P sreq w' = (Next e, w')
       end.
Proof.
  intros Hrun Hok.
  destruct (perform_cache h req w r w' Hrun Hok) as [_ Hcache].
  assert (forall k, search_class k = true -> cache w' !! k = None) as Hgone.
  { intros k Hk. destruct Hcache as [-> | ->]; rewrite !lookup_evict.
    - rewrite glob_properties, Hk. reflexivity.
    - rewrite glob_properties, Hk. destruct (glob _ k); reflexivity. }
  split; [exact Hgone|].
  intros sreq. destruct (build_findQuery P (req_query sreq)) as [findQuery|e] eqn:B.
  - cbv zeta. eexists. split.
    + apply getProperties_miss; [exact B|].
      apply cached_absent, Hgone, search_key_class.
    + reflexivity.
  - apply getProperties_throw, B.
Qed.

Lemma writes_invalidate_search_witness :
  cached warmed (search_key toy [("price", VObj [("$lte", VNum (NInt 2000))])])
  = Some (VArr [])
  /\ forall k, search_class k = true ->
       cache (snd (perform PostProperty (by_user alice [("title", VStr "Flat")] "") warmed)) !! k
       = None.
Proof.
  split; [vm_compute; reflexivity|].
  exact (proj1 (writes_invalidate_search toy PostProperty
                  (by_user alice [("title", VStr "Flat")] "") warmed _ _
                  (surjective_pairing _) eq_refl)).
Defined.

(** Remark.  The theorem rests on [delete(keyOrPattern)] evicting by
    pattern.  A deletion that takes [properties:*] as the name of one
    key, as the [DEL] command of Redis does, leaves every entry of the
    search class where it is. *)
Lemma single_key_delete_keeps_search_entries P findQuery (m : gmap string entry) :
  delete "properties:*" m !! search_key P findQuery = m !! search_key P findQuery.
Proof.
  apply lookup_delete_ne. unfold search_key. simpl. discriminate.
Qed.

Example glob_examples :
  glob "properties:*" "properties:{}" = true
  /\ glob "properties:*" "myProperties:64b7f0c2a1d3e4f5a6b7c8d9" = false
  /\ glob "properties:*" "cities" = false
  /\ glob "cities" "cities" = true
  /\ glob "a*c" "abbc" = true
  /\ glob "a*c" "abcb" = false.
Proof. repeat split; reflexivity. Qed.

(** ** Create and the caller's own list *)

Lemma own_key_not_search uid : glob "properties:*" ("myProperties:" ++ uid) = false.
Proof. rewrite glob_properties. reflexivity. Qed.

(** Nor is it the key [properties:*] itself: a deletion by single key
    would leave it alone as well. *)
Lemma own_key_single_delete uid (m : gmap string entry) :
  delete "properties:*" m !! ("myProperties:" ++ uid) = m !! ("myProperties:" ++ uid).
Proof. apply lookup_delete_ne. discriminate. Qed.

Lemma getMyProperties_hit P req w parsed :
  ObjectId_isValid (req_user_id req) = true ->
  cached w ("myProperties:" ++ req_user_id req) = Some parsed ->
  getMyProperties P req w
  = (Json 200 [("message", VStr "My properties fetched successfully from cache");
               ("properties", parsed)],
     after w [redis_GET ("myProperties:" ++ req_user_id req)] (cache w)).
Proof.
  intros Hv Hc. unfold getMyProperties, try_catch. cbn.
  rewrite (new_ObjectId_valid _ Hv). cbn.
  unfold cached in *. cbn [cache clock]. rewrite Hc. reflexivity.
Qed.

Lemma postProperty_world req w :
  let data := set_field "isVerified" (VBool false)
                (set_field "listerId" (VStr (req_user_id req))
                   (set_field "id" (VStr (string_of_Z (clock w))) (req_body req))) in
  snd (postProperty req w)
  = {| cache := evict "properties:*" (cache w);
       db := snd (store_create data (db w));
       clock := clock w;
       calls := (calls w ++ [queries_call "createProperty" [VObj data];
                             redis_DEL "properties:*"])%list |}.
Proof.
  unfold postProperty, try_catch. cbn.
  match goal with |- context [store_create ?a ?b] => destruct (store_create a b) as [doc d] end.
  cbn. rewrite <- app_assoc. reflexivity.
Qed.

(** C10.  A create leaves the entry of the cache under
    [myProperties:<callerId>] as it was: the only cache call it issues
    is the [DEL] of the property-search pattern, which that key does not
    match.  Hence, as long as the entry cached before the create has not
    expired, the caller's my-properties read answers from it, with the
    list of before the create. *)
Theorem create_keeps_own_list (P : platform) (req : request) (w : world) :
  let own := "myProperties:" ++ req_user_id req in
  let w' := snd (postProperty req w) in
  cache w' !! own = cache w !! own
  /\ (exists data,
        calls w' = (calls w ++ [queries_call "createProperty" [data];
                                redis_DEL "properties:*"])%list)
  /\ forall read dt parsed,
       req_user_id read = req_user_id req ->
       ObjectId_isValid (req_user_id req) = true ->
       cached (later dt w) own = Some parsed ->
       fst (getMyProperties P read (later dt w'))
       = Json 200 [("message", VStr "My properties fetched successfully from cache");
                   ("properties", parsed)].
Proof.
  cbv zeta. pose proof (postProperty_world req w) as Hw. cbv zeta in Hw.
  rewrite Hw. cbn [cache calls].
  assert (evict "properties:*" (cache w) !! ("myProperties:" ++ req_user_id req)
          = cache w !! ("myProperties:" ++ req_user_id req)) as Hkeep.
  { rewrite lookup_evict, own_key_not_search. reflexivity. }
  split; [exact Hkeep|]. split; [eexists; reflexivity|].
  intros read dt parsed Hu Hv Hc.
  rewrite (getMyProperties_hit P read _ parsed).
  - reflexivity.
  - rewrite Hu. exact Hv.
  - rewrite Hu. unfold cached, later in *. cbn [cache clock] in *.
    rewrite Hkeep. exact Hc.
Qed.

Lemma create_keeps_own_list_witness :
  cached (later 1000 after_first_read) ("myProperties:" ++ alice) = Some (VArr [])
  /\ fst (getMyProperties toy alice_reads (later 1000 after_create))
     = Json 200 [("message", VStr "My properties fetched successfully from cache");
                 ("properties", VArr [])].
Proof.
  split; [vm_compute; reflexivity|].
  exact (proj2 (proj2 (create_keeps_own_list toy alice_lists after_first_read))
           alice_reads 1000 (VArr []) eq_refl eq_refl eq_refl).
Defined.

(** C2, at the input on which the service departs from it.  Alice reads
    her list (empty, and cached), lists a flat, and reads her list
    again with no write in between: the create succeeded and the store
    holds the flat, unverified and owned by Alice, yet the read answers
    the empty list from the cache. *)
Theorem read_after_create_is_stale :
  let created := VObj [("title", VStr "Flat"); ("price", VNum (NInt 1500));
                       ("id", VStr "1700000000000"); ("listerId", VStr alice);
                       ("isVerified", VBool false); ("_id", VOid (mint 0))] in
  fst (postProperty alice_lists after_first_read)
  = Json 201 [("message", VStr "Property listed successfully"); ("property", created)]
  /\ properties (db after_create) = [created]
  /\ getMyProperties toy alice_reads after_create
     = (Json 200 [("message", VStr "My properties fetched successfully from cache");
                  ("properties", VArr [])],
        after after_create [redis_GET ("myProperties:" ++ alice)] (cache after_create)).
Proof. cbv zeta. split; [|split]; vm_compute; reflexivity. Qed.

(** The round trip does hold when the caller's list is not in the cache
    at the time of the read. *)
Lemma same_id_parsed s o : new_ObjectId s = Ok o -> same_id (VOid o) (VStr s) = true.
Proof. intros H. unfold same_id. simpl. rewrite H. apply String.eqb_refl. Qed.

Lemma read_after_create_cold P req read w :
  req_user_id read = req_user_id req ->
  ObjectId_isValid (req_user_id req) = true ->
  cached (snd (postProperty req w)) ("myProperties:" ++ req_user_id req) = None ->
  exists created found,
    fst (postProperty req w)
    = Json 201 [("message", VStr "Property listed successfully");
                ("property", VObj created)]
    /\ fst (getMyProperties P read (snd (postProperty req w)))
       = Json 200 [("message", VStr "My properties fetched successfully");
                   ("properties", VArr found)]
    /\ VObj created ∈ found
    /\ get_field "isVerified" created = Some (VBool false)
    /\ get_field "listerId" created = Some (VStr (req_user_id req)).
Proof.
  intros Hu Hv Hc.
  set (data := set_field "isVerified" (VBool false)
                 (set_field "listerId" (VStr (req_user_id req))
                    (set_field "id" (VStr (string_of_Z (clock w))) (req_body req)))).
  set (created := match get_field "_id" data with
                  | Some _ => data
                  | None => set_field "_id" (VOid (mint (minted (db w)))) data
                  end).
  assert (get_field "isVerified" created = Some (VBool false)) as Hver.
  { unfold created, data. destruct (get_field "_id" _);
      rewrite ?get_set_field; reflexivity. }
  assert (get_field "listerId" created = Some (VStr (req_user_id req))) as Hown.
  { unfold created, data. destruct (get_field "_id" _);
      rewrite ?get_set_field; reflexivity. }
  exists created, (List.filter
                     (selects [("listerId", VOid (mkObjectId (string_map lower_ascii
                                                               (req_user_id req))))])
                     (properties (db w) ++ [VObj created])%list).
  revert Hc. unfold postProperty, getMyProperties, try_catch. cbn.
  rewrite Hu, (new_ObjectId_valid _ Hv). cbn.
  unfold cached. cbn [cache clock]. intros ->. cbn.
  split; [reflexivity|]. split; [reflexivity|]. split; [|auto].
  apply list_elem_of_In, filter_In. split.
  - apply in_or_app. right. left. reflexivity.
  - unfold selects. cbn [forallb fst snd]. rewrite Hown.
    rewrite (same_id_parsed _ _ (new_ObjectId_valid _ Hv)). reflexivity.
Qed.

(** ** Owner-scoped writes *)

Lemma same_id_text s o v : new_ObjectId s = Ok o -> same_id (VOid o) v = same_id (VStr s) v.
Proof. intros H. unfold same_id. simpl. rewrite H. reflexivity. Qed.

Lemma deleteProperty_run req w uid :
  new_ObjectId (req_user_id req) = Ok uid ->
  let deleteQuery := [("_id", VStr (req_params_id req)); ("listerId", VOid uid)] in
  let asked_ := queries_call "deleteProperty" [VObj deleteQuery] in
  deleteProperty req w
  = match store_delete deleteQuery (db w) with
    | (Some doc, d) =>
        (Json 200 [("message", VStr "Property deleted successfully"); ("property", doc)],
         {| cache := evict ("myProperties:" ++ req_user_id req)
                       (evict "properties:*" (cache w));
            db := d; clock := clock w;
            calls := (calls w ++ [asked_; redis_DEL "properties:*";
                                  redis_DEL ("myProperties:" ++ req_user_id req)])%list |})
    | (None, d) =>
        (Json 404 (not_found_or_forbidden DeleteProperty),
         {| cache := cache w; db := d; clock := clock w;
            calls := (calls w ++ [asked_])%list |})
    end.
Proof.
  intros Hu. unfold deleteProperty, try_catch. cbn. rewrite Hu. cbn.
  match goal with |- context [store_delete ?a ?b] =>
    destruct (store_delete a b) as [[doc|] d] end; cbn.
  - rewrite <- !app_assoc. reflexivity.
  - reflexivity.
Qed.

Lemma updateProperty_run req w pid uid :
  new_ObjectId (req_params_id req) = Ok pid ->
  new_ObjectId (req_user_id req) = Ok uid ->
  let updateQuery := [("_id", VOid pid); ("listerId", VOid uid)] in
  let update := [("$set", VObj (req_body req))] in
  let asked_ := queries_call "updateProperty" [VObj updateQuery; VObj update] in
  updateProperty req w
  = match store_update updateQuery update (db w) with
    | (Some doc, d) =>
        (Json 200 [("message", VStr "Property updated successfully"); ("property", doc)],
         {| cache := evict ("myProperties:" ++ req_user_id req)
                       (evict "properties:*" (cache w));
            db := d; clock := clock w;
            calls := (calls w ++ [asked_; redis_DEL "properties:*";
                                  redis_DEL ("myProperties:" ++ req_user_id req)])%list |})
    | (None, d) =>
        (Json 404 (not_found_or_forbidden UpdateProperty),
         {| cache := cache w; db := d; clock := clock w;
            calls := (calls w ++ [asked_])%list |})
    end.
Proof.
  intros Hp Hu. unfold updateProperty, try_catch. cbn. rewrite Hp. cbn. rewrite Hu. cbn.
  match goal with |- context [store_update ?a ?b ?c] =>
    destruct (store_update a b c) as [[doc|] d] end; cbn.
  - rewrite <- !app_assoc. reflexivity.
  - reflexivity.
Qed.

Lemma updateProperty_bad_id req w :
  ObjectId_isValid (req_params_id req) = false ->
  updateProperty req w = (Next InvalidReference, w).
Proof.
  intros H. unfold updateProperty, try_catch. cbn.
  rewrite (new_ObjectId_invalid _ H). reflexivity.
Qed.

(** C5, where delete departs from update.  For a caller with a
    well-formed identity, delete hands the store a filter whose [_id] is
    the text of the path parameter, unparsed; update parses the
    parameter first, so that its filter holds an [ObjectId], a different
    value, and on a text that is no identifier update ends in
    [next(error)] without reaching the store, while delete still
    queries it. *)
Theorem delete_does_not_parse_id (req : request) (w : world) (uid : ObjectId) :
  new_ObjectId (req_user_id req) = Ok uid ->
  (exists rest,
     calls (snd (deleteProperty req w))
     = (calls w ++ queries_call "deleteProperty"
                     [VObj [("_id", VStr (req_params_id req)); ("listerId", VOid uid)]]
                   :: rest)%list)
  /\ match new_ObjectId (req_params_id req) with
     | Ok pid =>
         (exists rest,
            calls (snd (updateProperty req w))
            = (calls w ++ queries_call "updateProperty"
                            [VObj [("_id", VOid pid); ("listerId", VOid uid)];
                             VObj [("$set", VObj (req_body req))]]
                          :: rest)%list)
         /\ [("_id", VStr (req_params_id req)); ("listerId", VOid uid)]
            <> [("_id", VOid pid); ("listerId", VOid uid)]
     | Throw e => updateProperty req w = (Next e, w)
     end.
Proof.
  intros Hu. split.
  - rewrite (deleteProperty_run req w uid Hu). cbv zeta.
    destruct (store_delete _ (db w)) as [[doc|] d]; cbn; eexists; reflexivity.
  - destruct (new_ObjectId (req_params_id req)) as [pid|e] eqn:Hp.
    + split; [|discriminate].
      rewrite (updateProperty_run req w pid uid Hp Hu). cbv zeta.
      destruct (store_update _ _ (db w)) as [[doc|] d]; cbn; eexists; reflexivity.
    + unfold new_ObjectId in Hp.
      destruct (ObjectId_isValid (req_params_id req)) eqn:V; [discriminate|].
      injection Hp as <-. apply updateProperty_bad_id, V.
Qed.

Lemma delete_does_not_parse_id_witness :
  updateProperty alice_bad_id after_create = (Next InvalidReference, after_create)
  /\ fst (deleteProperty alice_bad_id after_create)
     = Json 404 (not_found_or_forbidden DeleteProperty).
Proof.
  split.
  - exact (proj2 (delete_does_not_parse_id alice_bad_id after_create
                    (mkObjectId alice) eq_refl)).
  - vm_compute. reflexivity.
Defined.

Lemma take_first_none p l : (forall x, x ∈ l -> p x = false) -> take_first p l = None.
Proof.
  induction l as [|x l IH]; intros H; [reflexivity|]. simpl.
  rewrite (H x) by apply list_elem_of_here.
  rewrite IH; [reflexivity|]. intros y Hy. apply H, list_elem_of_further, Hy.
Qed.

Lemma change_first_none p f l : (forall x, x ∈ l -> p x = false) -> change_first p f l = None.
Proof.
  induction l as [|x l IH]; intros H; [reflexivity|]. simpl.
  rewrite (H x) by apply list_elem_of_here.
  rewrite IH; [reflexivity|]. intros y Hy. apply H, list_elem_of_further, Hy.
Qed.

(** An owner-scoped filter selects the documents that bear the
    identifier and belong to the caller. *)
Lemma selects_scoped (a : value) (id uid : string) (o : ObjectId) (doc : value) :
  (forall v, same_id a v = same_id (VStr id) v) ->
  new_ObjectId uid = Ok o ->
  selects [("_id", a); ("listerId", VOid o)] doc = names id doc && owned_by uid doc.
Proof.
  intros Ha Ho. destruct doc as [| | | | | | |fields]; try reflexivity.
  unfold selects, names, owned_by. cbn [forallb fst snd].
  destruct (get_field "_id" fields) as [v|]; [|reflexivity].
  rewrite Ha. destruct (same_id (VStr id) v); [|reflexivity]. cbn [andb].
  destruct (get_field "listerId" fields) as [u|]; [|reflexivity].
  rewrite (same_id_text uid o u Ho). apply andb_true_r.
Qed.

Lemma scoped_miss (a : value) (id uid : string) (o : ObjectId) (l : list value) :
  (forall v, same_id a v = same_id (VStr id) v) ->
  new_ObjectId uid = Ok o ->
  (forall doc, doc ∈ l -> names id doc = true -> owned_by uid doc = false) ->
  forall doc, doc ∈ l -> selects [("_id", a); ("listerId", VOid o)] doc = false.
Proof.
  intros Ha Ho H doc Hdoc. rewrite (selects_scoped a id uid o doc Ha Ho).
  destruct (names id doc) eqn:N; [|reflexivity].
  rewrite (H doc Hdoc N). reflexivity.
Qed.

Lemma perform_miss (h : writer) (req : request) (w : world) (pid uid : ObjectId) :
  h <> PostProperty ->
  new_ObjectId (req_params_id req) = Ok pid ->
  new_ObjectId (req_user_id req) = Ok uid ->
  (forall doc, doc ∈ properties (db w) ->
     names (req_params_id req) doc = true -> owned_by (req_user_id req) doc = false) ->
  fst (perform h req w) = Json 404 (not_found_or_forbidden h).
Proof.
  intros Hh Hp Hu Hmiss. destruct h; [congruence| |]; unfold perform.
  - rewrite (updateProperty_run req w pid uid Hp Hu). cbv zeta.
    unfold store_update. rewrite change_first_none; [reflexivity|].
    apply (scoped_miss _ (req_params_id req) (req_user_id req)); auto.
    intros v. apply same_id_text, Hp.
  - rewrite (deleteProperty_run req w uid Hu). cbv zeta.
    unfold store_delete. rewrite take_first_none; [reflexivity|].
    apply (scoped_miss _ (req_params_id req) (req_user_id req)); auto.
Qed.

Lemma perform_throw (h : writer) (req : request) (w1 w2 : world) :
  h <> PostProperty ->
  ObjectId_isValid (req_params_id req) && ObjectId_isValid (req_user_id req) = false ->
  (forall doc, doc ∈ properties (db w1) ->
     names (req_params_id req) doc = true -> owned_by (req_user_id req) doc = false) ->
  (forall doc, doc ∈ properties (db w2) -> names (req_params_id req) doc = false) ->
  fst (perform h req w1) = fst (perform h req w2).
Proof.
  intros Hh Hv H1 H2. destruct h; [congruence| |]; unfold perform.
  - unfold updateProperty, try_catch. cbn. unfold new_ObjectId.
    destruct (ObjectId_isValid (req_params_id req)); cbn; [|reflexivity].
    cbn in Hv. rewrite Hv. reflexivity.
  - destruct (ObjectId_isValid (req_user_id req)) eqn:Vu.
    + rewrite !(deleteProperty_run req _ _ (new_ObjectId_valid _ Vu)). cbv zeta.
      unfold store_delete. rewrite !take_first_none; [reflexivity| |].
      * intros doc Hdoc.
        rewrite (selects_scoped _ (req_params_id req) (req_user_id req) _ doc
                   (fun _ => eq_refl) (new_ObjectId_valid _ Vu)).
        rewrite (H2 doc Hdoc). reflexivity.
      * apply (scoped_miss _ (req_params_id req) (req_user_id req));
          auto using new_ObjectId_valid.
    + unfold deleteProperty, try_catch. cbn.
      rewrite (new_ObjectId_invalid _ Vu). reflexivity.
Qed.

(** C6.  Take an update or a delete, a world in which the target
    property exists and every property bearing the target identifier
    belongs to another lister, and a world in which no property bears
    that identifier.  The handler gives the same answer in both; when
    the path parameter and the caller's identity are well formed, that
    answer is status 404 with the fixed message of the operation. *)
Theorem ownership_isolation (h : writer) (req : request) (w1 w2 : world) :
  h <> PostProperty ->
  (exists doc, doc ∈ properties (db w1) /\ names (req_params_id req) doc = true) ->
  (forall doc, doc ∈ properties (db w1) ->
     names (req_params_id req) doc = true -> owned_by (req_user_id req) doc = false) ->
  (forall doc, doc ∈ properties (db w2) -> names (req_params_id req) doc = false) ->
  fst (perform h req w1) = fst (perform h req w2)
  /\ (ObjectId_isValid (req_params_id req) = true ->
      ObjectId_isValid (req_user_id req) = true ->
      fst (perform h req w1) = Json 404 (not_found_or_forbidden h)
      /\ fst (perform h req w2) = Json 404 (not_found_or_forbidden h)).
Proof.
  intros Hh _ H1 H2.
  assert (ObjectId_isValid (req_params_id req) = true ->
          ObjectId_isValid (req_user_id req) = true ->
          fst (perform h req w1) = Json 404 (not_found_or_forbidden h)
          /\ fst (perform h req w2) = Json 404 (not_found_or_forbidden h)) as Hboth.
  { intros Vp Vu. split.
    - eapply perform_miss; eauto using new_ObjectId_valid.
    - eapply perform_miss; eauto using new_ObjectId_valid.
      intros doc Hdoc Hn. rewrite (H2 doc Hdoc) in Hn. discriminate. }
  split; [|exact Hboth].
  destruct (ObjectId_isValid (req_params_id req) && ObjectId_isValid (req_user_id req)) eqn:V.
  - apply andb_true_iff in V as [Vp Vu]. destruct (Hboth Vp Vu) as [-> ->]. reflexivity.
  - apply perform_throw; assumption.
Qed.

Lemma after_create_properties : properties (db after_create) = [alices_flat].
Proof. vm_compute. reflexivity. Qed.

Lemma ownership_isolation_witness :
  fst (perform DeleteProperty bob_on_flat after_create)
  = fst (perform DeleteProperty bob_on_flat boot)
  /\ fst (perform DeleteProperty bob_on_flat after_create)
     = Json 404 (not_found_or_forbidden DeleteProperty).
Proof.
  assert (DeleteProperty <> PostProperty) as Hh by discriminate.
  assert (exists doc, doc ∈ properties (db after_create)
                      /\ names (req_params_id bob_on_flat) doc = true) as Hex.
  { exists alices_flat. rewrite after_create_properties.
    split; [apply list_elem_of_here | reflexivity]. }
  assert (forall doc, doc ∈ properties (db after_create) ->
            names (req_params_id bob_on_flat) doc = true ->
            owned_by (req_user_id bob_on_flat) doc = false) as H1.
  { intros doc Hdoc _. rewrite after_create_properties in Hdoc.
    apply list_elem_of_singleton in Hdoc. subst doc. reflexivity. }
  assert (forall doc, doc ∈ properties (db boot) ->
            names (req_params_id bob_on_flat) doc = false) as H2.
  { intros doc Hdoc. apply not_elem_of_nil in Hdoc. destruct Hdoc. }
  destruct (ownership_isolation DeleteProperty bob_on_flat after_create boot Hh Hex H1 H2)
    as [Heq Hboth].
  split; [exact Heq|]. exact (proj1 (Hboth eq_refl eq_refl)).
Defined.

(** ** Update *)

Lemma change_first_some p f l :
  (exists x, x ∈ l /\ p x = true) ->
  exists before x after_,
    l = (before ++ x :: after_)%list
    /\ p x = true
    /\ (forall y, y ∈ before -> p y = false)
    /\ change_first p f l = Some (f x, (before ++ f x :: after_)%list).
Proof.
  induction l as [|a l IH]; intros (x & Hx & Hp).
  - apply not_elem_of_nil in Hx. destruct Hx.
  - simpl. destruct (p a) eqn:Pa.
    + exists [], a, l. repeat split; auto. intros y Hy. apply not_elem_of_nil in Hy. destruct Hy.
    + apply elem_of_cons in Hx as [->|Hx]; [congruence|].
      destruct IH as (before & z & after_ & -> & Pz & Hb & ->); [eauto|].
      exists (a :: before), z, after_. repeat split; auto.
      intros y Hy. apply elem_of_cons in Hy as [->|Hy]; auto.
Qed.

Lemma get_assign_other k fields body :
  k ∉ keys body -> get_field k (assign fields body) = get_field k fields.
Proof.
  unfold assign. revert fields. induction body as [|[k0 v0] body IH]; intros fields Hk.
  - reflexivity.
  - simpl. rewrite IH.
    + rewrite get_set_field. destruct (String.eqb k k0) eqn:E; [|reflexivity].
      apply String.eqb_eq in E. subst. exfalso. apply Hk. apply list_elem_of_here.
    + intros Hin. apply Hk. apply list_elem_of_further, Hin.
Qed.

Lemma get_assign k v fields body :
  NoDup (keys body) -> (k, v) ∈ body -> get_field k (assign fields body) = Some v.
Proof.
  revert fields. induction body as [|[k0 v0] body IH]; intros fields Hnd Hin.
  - apply not_elem_of_nil in Hin. destruct Hin.
  - apply NoDup_cons in Hnd as [Hk0 Hnd].
    apply elem_of_cons in Hin as [[= -> ->]|Hin].
    + change (assign fields ((k0, v0) :: body)) with (assign (set_field k0 v0 fields) body).
      rewrite get_assign_other by exact Hk0.
      rewrite get_set_field, String.eqb_refl. reflexivity.
    + change (assign fields ((k0, v0) :: body)) with (assign (set_field k0 v0 fields) body).
      apply IH; assumption.
Qed.

(** C9.  When the ownership-scoped filter of an update selects a stored
    property, the handler sends the store [{ $set: body }] with the
    request body as it came, answers 200, and the first selected
    document is replaced by itself with every property of the body
    assigned: each field present in the body is read back from the
    stored record with the value the body gave it, whatever the field
    ([isVerified] and [listerId] included). *)
Theorem update_sets_every_field (req : request) (w : world) (pid uid : ObjectId) :
  new_ObjectId (req_params_id req) = Ok pid ->
  new_ObjectId (req_user_id req) = Ok uid ->
  NoDup (keys (req_body req)) ->
  (exists doc, doc ∈ properties (db w)
               /\ selects [("_id", VOid pid); ("listerId", VOid uid)] doc = true) ->
  exists before fields after_ w',
    properties (db w) = (before ++ VObj fields :: after_)%list
    /\ selects [("_id", VOid pid); ("listerId", VOid uid)] (VObj fields) = true
    /\ (forall d, d ∈ before ->
          selects [("_id", VOid pid); ("listerId", VOid uid)] d = false)
    /\ updateProperty req w
       = (Json 200 [("message", VStr "Property updated successfully");
                    ("property", VObj (assign fields (req_body req)))], w')
    /\ properties (db w') = (before ++ VObj (assign fields (req_body req)) :: after_)%list
    /\ queries_call "updateProperty"
         [VObj [("_id", VOid pid); ("listerId", VOid uid)];
          VObj [("$set", VObj (req_body req))]] ∈ calls w'
    /\ forall k v, (k, v) ∈ req_body req ->
         get_field k (assign fields (req_body req)) = Some v.
Proof.
  intros Hp Hu Hnd Hex.
  destruct (change_first_some _ (apply_update [("$set", VObj (req_body req))]) _ Hex)
    as (before & x & after_ & Hl & Hsel & Hb & Hch).
  destruct x as [| | | | | | |fields]; try discriminate Hsel.
  exists before, fields, after_.
  rewrite (updateProperty_run req w pid uid Hp Hu). cbv zeta.
  unfold store_update. rewrite Hch. cbn [apply_update get_field String.eqb Ascii.eqb Bool.eqb andb].
  eexists. split; [exact Hl|]. split; [exact Hsel|]. split; [exact Hb|].
  split; [reflexivity|]. split; [reflexivity|]. split.
  - cbn [calls]. apply elem_of_app. right. apply list_elem_of_here.
  - intros k v Hkv. apply get_assign; assumption.
Qed.

Lemma update_sets_every_field_witness :
  exists stored,
    fst (updateProperty alice_promotes after_create)
    = Json 200 [("message", VStr "Property updated successfully");
                ("property", VObj stored)]
    /\ get_field "isVerified" stored = Some (VBool true)
    /\ get_field "listerId" stored = Some (VStr bob).
Proof.
  assert (NoDup (keys (req_body alice_promotes))) as Hnd.
  { cbn. constructor.
    - intros H. apply list_elem_of_singleton in H. discriminate.
    - constructor; [apply not_elem_of_nil | constructor]. }
  assert (exists doc, doc ∈ properties (db after_create)
            /\ selects [("_id", VOid (mkObjectId flat_id));
                        ("listerId", VOid (mkObjectId alice))] doc = true) as Hex.
  { exists alices_flat. rewrite after_create_properties.
    split; [apply list_elem_of_here | reflexivity]. }
  destruct (update_sets_every_field alice_promotes after_create
              (mkObjectId flat_id) (mkObjectId alice) eq_refl eq_refl Hnd Hex)
    as (before & fields & after_ & w' & _ & _ & _ & Hrun & _ & _ & Hset).
  exists (assign fields (req_body alice_promotes)).
  rewrite Hrun. split; [reflexivity|]. split; apply Hset.
  - apply list_elem_of_here.
  - apply list_elem_of_further, list_elem_of_here.
Defined.

(** ** Dates *)

Lemma get_availableFrom_rows P q :
  get_field "availableFrom" (rows P q)
  = asked (fun x => Some (VObj [("$lte", new_Date P x)])) (availableFrom q).
Proof.
  unfold rows. rewrite !get_field_push. eval_key_tests.
  destruct (asked _ (availableFrom q)); reflexivity.
Qed.

(** The claim of C7 fails: on [availableFrom=not-a-date] the search does
    not end in [next(InvalidDate)].  It builds a filter whose bound is an
    [Invalid Date], looks up the key that prints the bound as [null],
    queries the persistence store and answers 200. *)
Lemma unparseable_date_goes_through :
  Date_parse toy "not-a-date" = None
  /\ build_findQuery toy q_bad_date = Ok [("availableFrom", VObj [("$lte", VDate None)])]
  /\ fst (getProperties toy (searching q_bad_date) boot) <> Next InvalidDate
  /\ fst (getProperties toy (searching q_bad_date) boot)
     = Json 200 [("message", VStr "Properties fetched successfully");
                 ("properties", VArr [])]
  /\ calls (snd (getProperties toy (searching q_bad_date) boot))
     = [redis_GET (search_key toy [("availableFrom", VObj [("$lte", VDate None)])]);
        queries_call "getProperties" [VObj [("availableFrom", VObj [("$lte", VDate None)])]];
        redis_SETEX (search_key toy [("availableFrom", VObj [("$lte", VDate None)])])
          300 (VArr [])].
Proof.
  split; [reflexivity|]. split; [reflexivity|]. split; [|split].
  - vm_compute. discriminate.
  - vm_compute. reflexivity.
  - vm_compute. reflexivity.
Qed.

Lemma asked_unparseable P p x :
  present p x ->
  Date_parse P (String_of x) = None ->
  asked (fun x => Some (VObj [("$lte", new_Date P x)])) p
  = Some (VObj [("$lte", VDate None)]).
Proof.
  intros Hx Hd. apply asked_present. exists x. split; [exact Hx|].
  unfold new_Date. rewrite Hd. reflexivity.
Qed.

(** C7, amended.  For every property search whose [availableFrom] is
    present but not a parseable date and whose identifiers are well
    formed, no [InvalidDate] is raised (the builder never raises it).
    The builder returns a filter whose [availableFrom] bound is an
    [Invalid Date]; that constraint prints as [{"$lte":null}] in the
    cache key (the key of a search with no other parameter is
    [properties:{"availableFrom":{"$lte":null}}]), and the filter, hence
    the key, is the same for every other unparseable text.  The handler looks the derived key up in
    the cache.  On a hit it answers 200 with the cached value after the
    single [GET].  On a miss it queries the persistence store with that
    filter, stores the result under the derived key with the property
    TTL, and answers 200 with it: the calls are [GET], the query, the
    [SETEX], in this order. *)
Theorem unparseable_date_builds_filter (P : platform) (req : request) (w : world) (x : qval) :
  present (availableFrom (req_query req)) x ->
  Date_parse P (String_of x) = None ->
  valid_query (req_query req) = true ->
  exists findQuery,
    build_findQuery P (req_query req) = Ok findQuery
    /\ get_field "availableFrom" findQuery = Some (VObj [("$lte", VDate None)])
    /\ JSON_stringify P (VObj [("$lte", VDate None)]) = "{" ++ quote "$lte" ++ ":null}"
    /\ search_key P [("availableFrom", VObj [("$lte", VDate None)])]
       = "properties:{" ++ quote "availableFrom" ++ ":{" ++ quote "$lte" ++ ":null}}"
    /\ (forall x', x' <> QStr "" -> Date_parse P (String_of x') = None ->
          build_findQuery P (set_availableFrom (Some x') (req_query req)) = Ok findQuery)
    /\ (forall q, build_findQuery P q <> Throw InvalidDate)
    /\ match cached w (search_key P findQuery) with
       | Some parsed =>
           getProperties P req w
           = (Json 200 [("message", VStr "Properties fetched successfully from cache");
                        ("properties", parsed)],
              after w [redis_GET (search_key P findQuery)] (cache w))
       | None =>
           let found := find_properties P findQuery (properties (db w)) in
           getProperties P req w
           = (Json 200 [("message", VStr "Properties fetched successfully");
                        ("properties", VArr found)],
              after w [redis_GET (search_key P findQuery);
                       queries_call "getProperties" [VObj findQuery];
                       redis_SETEX (search_key P findQuery) (PROPERTY_CACHE_TTL P)
                         (toJSON P (VArr found))]
                (<[search_key P findQuery :=
                     {| payload := toJSON P (VArr found);
                        expires := clock w + 1000 * PROPERTY_CACHE_TTL P |}]> (cache w)))
       end.
Proof.
  intros Hx Hd Hv. exists (rows P (req_query req)).
  pose proof (build_findQuery_rows P _ Hv) as B.
  split; [exact B|]. split; [|split; [reflexivity|split; [reflexivity|split; [|split]]]].
  - rewrite get_availableFrom_rows. apply (asked_unparseable P _ x Hx Hd).
  - intros x' Hx' Hd'. rewrite build_findQuery_cases.
    change (valid_query (set_availableFrom (Some x') (req_query req)))
      with (valid_query (req_query req)).
    rewrite Hv. f_equal. unfold rows.
    change (price_range (set_availableFrom (Some x') (req_query req)))
      with (price_range (req_query req)).
    project_query.
    rewrite (asked_unparseable P (Some x') x' (conj eq_refl Hx') Hd').
    rewrite (asked_unparseable P _ x Hx Hd). reflexivity.
  - intros q. rewrite build_findQuery_cases. destruct (valid_query q); discriminate.
  - destruct (cached w (search_key P (rows P (req_query req)))) as [parsed|] eqn:Hc.
    + unfold getProperties, try_catch. simpl. rewrite B. simpl.
      unfold cached in *. cbn [cache clock]. rewrite Hc. reflexivity.
    + apply getProperties_miss; assumption.
Qed.

Lemma unparseable_date_builds_filter_witness :
  exists findQuery,
    build_findQuery toy q_bad_date = Ok findQuery
    /\ get_field "availableFrom" findQuery = Some (VObj [("$lte", VDate None)])
    /\ getProperties toy (searching q_bad_date) boot
       = (Json 200 [("message", VStr "Properties fetched successfully");
                    ("properties", VArr [])],
          after boot [redis_GET (search_key toy findQuery);
                      queries_call "getProperties" [VObj findQuery];
                      redis_SETEX (search_key toy findQuery) 300 (VArr [])]
            (<[search_key toy findQuery :=
                 {| payload := VArr []; expires := clock boot + 1000 * 300 |}]>
               (cache boot))).
Proof.
  assert (present (availableFrom (req_query (searching q_bad_date))) (QStr "not-a-date"))
    as Hx by (split; [reflexivity | discriminate]).
  pose proof (unparseable_date_builds_filter toy (searching q_bad_date) boot
                (QStr "not-a-date") Hx eq_refl eq_refl) as [findQuery H].
  destruct H as (B & G & _ & _ & _ & _ & Hrun).
  exists findQuery. split; [exact B|]. split; [exact G|].
  assert (findQuery = [("availableFrom", VObj [("$lte", VDate None)])]) as ->.
  { assert (Ok findQuery
            = Ok [("availableFrom", VObj [("$lte", VDate None)])] :> result obj) as E
      by (rewrite <- B; reflexivity).
    injection E as ->. reflexivity. }
  exact Hrun.
Defined.

(** ** What else the handlers do *)

Lemma getProperties_hit P req w findQuery parsed :
  build_findQuery P (req_query req) = Ok findQuery ->
  cached w (search_key P findQuery) = Some parsed ->
  getProperties P req w
  = (Json 200 [("message", VStr "Properties fetched successfully from cache");
               ("properties", parsed)],
     after w [redis_GET (search_key P findQuery)] (cache w)).
Proof.
  intros B Hc. unfold getProperties, try_catch. simpl. rewrite B. simpl.
  unfold cached in *. cbn [cache clock]. rewrite Hc. reflexivity.
Qed.

Lemma getMyProperties_miss P req w owner :
  new_ObjectId (req_user_id req) = Ok owner ->
  cached w ("myProperties:" ++ req_user_id req) = None ->
  let found := List.filter (selects [("listerId", VOid owner)]) (properties (db w)) in
  getMyProperties P req w
  = (Json 200 [("message", VStr "My properties fetched successfully");
               ("properties", VArr found)],
     after w [redis_GET ("myProperties:" ++ req_user_id req);
              queries_call "getMyProperties" [VObj [("listerId", VOid owner)]];
              redis_SETEX ("myProperties:" ++ req_user_id req) (PROPERTY_CACHE_TTL P)
                (toJSON P (VArr found))]
       (<["myProperties:" ++ req_user_id req :=
            {| payload := toJSON P (VArr found);
               expires := clock w + 1000 * PROPERTY_CACHE_TTL P |}]> (cache w))).
Proof.
  intros Ho Hc. unfold getMyProperties, try_catch. cbn. rewrite Ho. cbn.
  unfold cached in *. cbn [cache clock]. rewrite Hc. cbn.
  unfold after. rewrite <- !app_assoc. reflexivity.
Qed.

Lemma getMyProperties_throw P req w :
  ObjectId_isValid (req_user_id req) = false ->
  getMyProperties P req w = (Next InvalidReference, w).
Proof.
  intros H. unfold getMyProperties, try_catch. cbn.
  rewrite (new_ObjectId_invalid _ H). reflexivity.
Qed.

Lemma deleteProperty_throw req w :
  ObjectId_isValid (req_user_id req) = false ->
  deleteProperty req w = (Next InvalidReference, w).
Proof.
  intros H. unfold deleteProperty, try_catch. cbn.
  rewrite (new_ObjectId_invalid _ H). reflexivity.
Qed.

Lemma updateProperty_throw req w :
  ObjectId_isValid (req_params_id req) && ObjectId_isValid (req_user_id req) = false ->
  updateProperty req w = (Next InvalidReference, w).
Proof.
  intros H. unfold updateProperty, try_catch. cbn. unfold new_ObjectId.
  destruct (ObjectId_isValid (req_params_id req)); cbn; [|reflexivity].
  cbn in H. rewrite H. reflexivity.
Qed.

(** The two paths of a read, for any of the seven. *)
Lemma serve_hit P h req w p parsed :
  plan P h req (db w) = Ok p ->
  cached w (key p) = Some parsed ->
  exists message,
    serve P h req w
    = (Json 200 [("message", VStr message); (plural p, parsed)],
       after w [redis_GET (key p)] (cache w)).
Proof.
  intros Hp Hc.
  destruct h; simpl in Hp;
    try (destruct (build_findQuery P (req_query req)) as [fq|] eqn:B; [|discriminate]);
    try (destruct (new_ObjectId (req_user_id req)) as [owner|] eqn:B; [|discriminate]);
    injection Hp as <-; cbn [key plural] in *;
    unfold serve, getProperties, getMyProperties, getCity, getState, getPropertyType,
           getPropertyTag, getAmenity, reference_list, try_catch, search_key;
    simpl; try rewrite B; simpl;
    unfold cached in *; cbn [cache clock]; rewrite Hc; simpl;
    eexists; reflexivity.
Qed.

Lemma serve_miss P h req w p :
  plan P h req (db w) = Ok p ->
  cached w (key p) = None ->
  exists message,
    serve P h req w
    = (Json 200 [("message", VStr message); (plural p, VArr (fresh p))],
       after w [redis_GET (key p);
                queries_call (query_name p) (query_args p);
                redis_SETEX (key p) (ttl p) (toJSON P (VArr (fresh p)))]
         (<[key p := {| payload := toJSON P (VArr (fresh p));
                        expires := clock w + 1000 * ttl p |}]> (cache w))).
Proof.
  intros Hp Hc.
  destruct h; simpl in Hp;
    try (destruct (build_findQuery P (req_query req)) as [fq|] eqn:B; [|discriminate]);
    try (destruct (new_ObjectId (req_user_id req)) as [owner|] eqn:B; [|discriminate]);
    injection Hp as <-; cbn [key plural fresh ttl query_name query_args] in *;
    unfold serve, getProperties, getMyProperties, getCity, getState, getPropertyType,
           getPropertyTag, getAmenity, reference_list, try_catch, search_key;
    simpl; try rewrite B; simpl;
    unfold cached in *; cbn [cache clock]; rewrite Hc; simpl;
    unfold after; rewrite <- !app_assoc; simpl;
    eexists; reflexivity.
Qed.

(** X1.  The filter builder fails exactly when one of the identifier
    parameters is malformed, and then with the error of [new ObjectId]:
    no other parameter can make it fail.  A search with a malformed
    identifier ends in [next(error)] before any call to the cache or to
    the persistence store, the world being left as it was. *)
Theorem malformed_identifier_stops_search (P : platform) (req : request) (w : world) :
  (forall e, build_findQuery P (req_query req) = Throw e
             <-> valid_query (req_query req) = false /\ e = InvalidReference)
  /\ (valid_query (req_query req) = false ->
      getProperties P req w = (Next InvalidReference, w)).
Proof.
  split.
  - intros e. rewrite build_findQuery_cases.
    destruct (valid_query (req_query req)); split.
    + discriminate.
    + intros [? _]. discriminate.
    + intros [= <-]. split; reflexivity.
    + intros [_ ->]. reflexivity.
  - intros Hv. apply getProperties_throw. rewrite build_findQuery_cases, Hv. reflexivity.
Qed.

Lemma malformed_identifier_stops_search_witness :
  valid_query q_bad_type = false
  /\ getProperties toy (searching q_bad_type) warmed = (Next InvalidReference, warmed).
Proof.
  split; [reflexivity|].
  exact (proj2 (malformed_identifier_stops_search toy (searching q_bad_type) warmed)
           eq_refl).
Defined.

Lemma truthy_blank p : truthy (blank p) = truthy p.
Proof. destruct p as [[[|c s]|items]|]; reflexivity. Qed.

Lemma asked_blank {A} (f : qval -> option A) p : asked f (blank p) = asked f p.
Proof. destruct p as [[[|c s]|items]|]; reflexivity. Qed.

Lemma all_value_blank p : all_value (blank p) = all_value p.
Proof. destruct p as [[[|c s]|items]|]; reflexivity. Qed.

Lemma ok_id_blank p : ok_id (blank p) = ok_id p.
Proof. destruct p as [[[|c s]|items]|]; reflexivity. Qed.

Lemma ok_ids_blank p : ok_ids (blank p) = ok_ids p.
Proof. destruct p as [[[|c s]|items]|]; reflexivity. Qed.

Lemma price_range_drop_empty q : price_range (drop_empty q) = price_range q.
Proof.
  unfold price_range. cbn [drop_empty minPrice maxPrice].
  destruct (minPrice q) as [[[|c s]|items]|], (maxPrice q) as [[[|c' s']|items']|];
    reflexivity.
Qed.

(** X2.  A parameter given as the empty string counts as absent: taking
    every such parameter out of the query changes neither the filter
    that is built nor anything the search handler does, so both
    requests share one cache entry. *)
Theorem empty_parameters_are_ignored (P : platform) (req : request) (w : world) :
  build_findQuery P (drop_empty (req_query req)) = build_findQuery P (req_query req)
  /\ getProperties P (with_query (drop_empty (req_query req)) req) w
     = getProperties P req w.
Proof.
  assert (build_findQuery P (drop_empty (req_query req))
          = build_findQuery P (req_query req)) as B.
  { rewrite !build_findQuery_cases. unfold valid_query, rows.
    rewrite price_range_drop_empty.
    cbn [drop_empty typeId stateId cityId title availableFrom minPrice maxPrice
         minBedrooms minBathrooms minRating listingType furnished amenityIds tagIds].
    rewrite !truthy_blank, !asked_blank, !all_value_blank, !ok_id_blank, !ok_ids_blank.
    reflexivity. }
  split; [exact B|].
  unfold getProperties. cbn [with_query req_query]. rewrite B. reflexivity.
Qed.

Lemma cached_fresh_entry (w : world) (m : gmap string entry) k v life dt :
  cached {| cache := <[k := {| payload := v; expires := clock w + life |}]> m;
            db := db w; clock := clock w + dt; calls := calls w |} k
  = if dt <? life then Some v else None.
Proof.
  unfold cached. cbn [cache clock]. rewrite lookup_insert_eq. cbn.
  unfold live. cbn [expires payload].
  destruct (dt <? life) eqn:E.
  - apply Z.ltb_lt in E. assert ((clock w + dt <? clock w + life) = true) as ->; [|reflexivity].
    apply Z.ltb_lt. lia.
  - apply Z.ltb_ge in E. assert ((clock w + dt <? clock w + life) = false) as ->; [|reflexivity].
    apply Z.ltb_ge. lia.
Qed.

(** The world a read leaves behind after a miss, some time later. *)
Lemma after_miss_later P h req w p dt :
  plan P h req (db w) = Ok p ->
  cached w (key p) = None ->
  db (later dt (snd (serve P h req w))) = db w
  /\ cached (later dt (snd (serve P h req w))) (key p)
     = if dt <? 1000 * ttl p then Some (toJSON P (VArr (fresh p))) else None.
Proof.
  intros Hp Hc. destruct (serve_miss P h req w p Hp Hc) as [message ->].
  split; [reflexivity|].
  unfold later, after. cbn [snd cache db clock calls].
  apply (cached_fresh_entry
           {| cache := cache w; db := db w; clock := clock w; calls := _ |}).
Qed.

(** X3.  When a read has missed the cache and stored what it fetched,
    any read that derives the same key before the TTL has run out is
    answered from the cache: its only call is the [GET], no query goes
    to the persistence store, and it receives the JSON image of the list
    the first read answered (whatever its own filter would select). *)
Theorem repeated_read_hits (P : platform) (h h' : reader) (req req' : request) (w : world)
    (p p' : lookup) (dt : Z) :
  plan P h req (db w) = Ok p ->
  cached w (key p) = None ->
  dt < 1000 * ttl p ->
  plan P h' req' (db w) = Ok p' ->
  key p' = key p ->
  let w1 := later dt (snd (serve P h req w)) in
  exists message,
    serve P h' req' w1
    = (Json 200 [("message", VStr message); (plural p', toJSON P (VArr (fresh p)))],
       after w1 [redis_GET (key p)] (cache w1)).
Proof.
  intros Hp Hc Hdt Hp' Hk w1.
  destruct (after_miss_later P h req w p dt Hp Hc) as [Hdb Hcached].
  fold w1 in Hdb, Hcached.
  apply Z.ltb_lt in Hdt. rewrite Hdt in Hcached.
  rewrite <- Hk in Hcached |- *.
  apply serve_hit; [rewrite Hdb; exact Hp' | exact Hcached].
Qed.

Lemma repeated_read_hits_witness :
  exists message,
    serve toy GetCity alice_lists (later 5000 (snd (serve toy GetCity alice_reads boot)))
    = (Json 200 [("message", VStr message); ("cities", VArr [])],
       after (later 5000 (snd (serve toy GetCity alice_reads boot)))
         [redis_GET "cities"]
         (cache (later 5000 (snd (serve toy GetCity alice_reads boot))))).
Proof.
  exact (repeated_read_hits toy GetCity GetCity alice_reads alice_lists boot _ _ 5000
           eq_refl eq_refl eq_refl eq_refl eq_refl).
Defined.

(** X4.  Once the TTL of the entry has run out, the same read misses
    again: it queries the persistence store anew and stores a new entry
    under the same key. *)
Theorem expired_entry_is_refetched (P : platform) (h : reader) (req req' : request)
    (w : world) (p : lookup) (dt : Z) :
  plan P h req (db w) = Ok p ->
  plan P h req' (db w) = Ok p ->
  cached w (key p) = None ->
  1000 * ttl p <= dt ->
  let w1 := later dt (snd (serve P h req w)) in
  exists message,
    serve P h req' w1
    = (Json 200 [("message", VStr message); (plural p, VArr (fresh p))],
       after w1 [redis_GET (key p);
                 queries_call (query_name p) (query_args p);
                 redis_SETEX (key p) (ttl p) (toJSON P (VArr (fresh p)))]
         (<[key p := {| payload := toJSON P (VArr (fresh p));
                        expires := clock w1 + 1000 * ttl p |}]> (cache w1))).
Proof.
  intros Hp Hp' Hc Hdt w1.
  destruct (after_miss_later P h req w p dt Hp Hc) as [Hdb Hcached].
  fold w1 in Hdb, Hcached.
  apply Z.ltb_ge in Hdt. rewrite Hdt in Hcached.
  apply serve_miss; [rewrite Hdb; exact Hp' | exact Hcached].
Qed.

Lemma expired_entry_is_refetched_witness :
  exists message,
    fst (serve toy GetCity alice_reads
           (later 3600000 (snd (serve toy GetCity alice_reads boot))))
    = Json 200 [("message", VStr message); ("cities", VArr [])]
    /\ calls (snd (serve toy GetCity alice_reads
                     (later 3600000 (snd (serve toy GetCity alice_reads boot)))))
       = [redis_GET "cities"; queries_call "getCity" []; redis_SETEX "cities" 3600 (VArr []);
          redis_GET "cities"; queries_call "getCity" []; redis_SETEX "cities" 3600 (VArr [])].
Proof.
  destruct (expired_entry_is_refetched toy GetCity alice_reads alice_reads boot _ 3600000
              eq_refl eq_refl eq_refl ltac:(vm_compute; discriminate)) as [message H].
  exists message. rewrite H. split; reflexivity.
Defined.

(** X5.  A read changes neither the database nor the clock, and of the
    cache at most the entry under the key it derives: if it cannot
    derive a key the world is left as it was, otherwise every other key
    keeps its entry. *)
Theorem reads_touch_only_their_key (P : platform) (h : reader) (req : request) (w : world) :
  let w' := snd (serve P h req w) in
  db w' = db w
  /\ clock w' = clock w
  /\ match plan P h req (db w) with
     | Ok p => forall k, k <> key p -> cache w' !! k = cache w !! k
     | Throw _ => w' = w
     end.
Proof.
  cbv zeta. destruct (plan P h req (db w)) as [p|e] eqn:Hp.
  - destruct (cached w (key p)) as [parsed|] eqn:Hc.
    + destruct (serve_hit P h req w p parsed Hp Hc) as [message ->].
      repeat split; reflexivity.
    + destruct (serve_miss P h req w p Hp Hc) as [message ->].
      split; [reflexivity|]. split; [reflexivity|].
      intros k Hk. cbn [snd after cache]. apply lookup_insert_ne. congruence.
  - rewrite (serve_throw P h req w e Hp). repeat split; reflexivity.
Qed.

Lemma reads_touch_only_their_key_witness :
  cache (snd (serve toy GetCity alice_reads warmed))
    !! search_key toy [("price", VObj [("$lte", VNum (NInt 2000))])]
  = cache warmed !! search_key toy [("price", VObj [("$lte", VNum (NInt 2000))])].
Proof.
  exact (proj2 (proj2 (reads_touch_only_their_key toy GetCity alice_reads warmed))
           (search_key toy [("price", VObj [("$lte", VNum (NInt 2000))])])
           ltac:(discriminate)).
Defined.

Lemma append_same_prefix (a x y : string) : a ++ x = a ++ y -> x = y.
Proof. induction a as [|c a IH]; simpl; [trivial|]. intros [= H]. apply IH, H. Qed.

(** X6.  The seven reads keep their cache entries apart: two reads that
    derive the same key are reads of the same handler (hence of the same
    TTL class and list name), and two my-properties reads that derive
    the same key come from callers with the same identity text. *)
Theorem cache_keys_are_disjoint (P : platform) (h1 h2 : reader) (r1 r2 : request)
    (d1 d2 : database) (p1 p2 : lookup) :
  plan P h1 r1 d1 = Ok p1 ->
  plan P h2 r2 d2 = Ok p2 ->
  key p1 = key p2 ->
  h1 = h2
  /\ ttl p1 = ttl p2
  /\ plural p1 = plural p2
  /\ (h1 = GetMyProperties -> req_user_id r1 = req_user_id r2).
Proof.
  intros H1 H2 Hk.
  destruct h1; simpl in H1;
    try (destruct (build_findQuery P (req_query r1)) as [f1|]; [|discriminate]);
    try (destruct (new_ObjectId (req_user_id r1)) as [o1|]; [|discriminate]);
    injection H1 as <-;
    destruct h2; simpl in H2;
    try (destruct (build_findQuery P (req_query r2)) as [f2|]; [|discriminate]);
    try (destruct (new_ObjectId (req_user_id r2)) as [o2|]; [|discriminate]);
    injection H2 as <-;
    cbn [key ttl plural] in *; try discriminate Hk;
    repeat split; try reflexivity; try discriminate.
  intros _. exact (append_same_prefix "myProperties:" _ _ Hk).
Qed.

Lemma cache_keys_are_disjoint_witness :
  GetMyProperties = GetMyProperties
  /\ PROPERTY_CACHE_TTL toy = PROPERTY_CACHE_TTL toy
  /\ "properties" = "properties"
  /\ (GetMyProperties = GetMyProperties -> alice = alice).
Proof.
  exact (cache_keys_are_disjoint toy GetMyProperties GetMyProperties
           alice_reads alice_lists empty_db empty_db _ _ eq_refl eq_refl eq_refl).
Defined.

(** X7.  No handler of the service sends more than one query to the
    persistence store, and none issues more than three calls in all:
    there is no retry and no second lookup. *)
Theorem one_query_per_request (P : platform) (e : endpoint) (req : request) (w : world) :
  exists issued,
    calls (snd (handle P e req w)) = (calls w ++ issued)%list
    /\ (persistence_accesses issued <= 1)%nat
    /\ (List.length issued <= 3)%nat.
Proof.
  destruct e as [h|h]; cbn [handle].
  - destruct (plan P h req (db w)) as [p|err] eqn:Hp.
    + destruct (cached w (key p)) as [parsed|] eqn:Hc.
      * destruct (serve_hit P h req w p parsed Hp Hc) as [message ->].
        eexists. split; [reflexivity|]. cbn. lia.
      * destruct (serve_miss P h req w p Hp Hc) as [message ->].
        eexists. split; [reflexivity|]. cbn. lia.
    + rewrite (serve_throw P h req w err Hp). exists [].
      split; [symmetry; apply app_nil_r|]. cbn. lia.
  - destruct h; cbn [perform].
    + pose proof (postProperty_world req w) as Hw. cbv zeta in Hw. rewrite Hw.
      eexists. split; [reflexivity|]. cbn. lia.
    + destruct (ObjectId_isValid (req_params_id req) && ObjectId_isValid (req_user_id req))
        eqn:V.
      * apply andb_true_iff in V as [Vp Vu].
        rewrite (updateProperty_run req w _ _ (new_ObjectId_valid _ Vp)
                   (new_ObjectId_valid _ Vu)). cbv zeta.
        destruct (store_update _ _ (db w)) as [[doc|] d];
          eexists; (split; [reflexivity|]); cbn; lia.
      * rewrite (updateProperty_throw req w V). exists [].
        split; [symmetry; apply app_nil_r|]. cbn. lia.
    + destruct (ObjectId_isValid (req_user_id req)) eqn:Vu.
      * rewrite (deleteProperty_run req w _ (new_ObjectId_valid _ Vu)). cbv zeta.
        destruct (store_delete _ (db w)) as [[doc|] d];
          eexists; (split; [reflexivity|]); cbn; lia.
      * rewrite (deleteProperty_throw req w Vu). exists [].
        split; [symmetry; apply app_nil_r|]. cbn. lia.
Qed.

(** X13.  The message of a read tells where the list came from: for
    each of the seven reads that derives its key, the message ends in
    [from cache] exactly when the key was present in the cache. *)
Theorem message_tells_origin (P : platform) (h : reader) (req : request) (w : world)
    (p : lookup) :
  plan P h req (db w) = Ok p ->
  says_from_cache (fst (serve P h req w))
  = match cached w (key p) with Some _ => true | None => false end.
Proof.
  intros Hp.
  destruct h; simpl in Hp;
    try (destruct (build_findQuery P (req_query req)) as [fq|] eqn:B; [|discriminate]);
    try (destruct (new_ObjectId (req_user_id req)) as [owner|] eqn:B; [|discriminate]);
    injection Hp as <-; cbn [key] in *;
    unfold serve, getProperties, getMyProperties, getCity, getState, getPropertyType,
           getPropertyTag, getAmenity, reference_list, try_catch, search_key;
    simpl; try rewrite B; simpl;
    unfold cached in *; cbn [cache clock];
    match goal with |- context [?m !! ?k ≫= live ?t] => destruct (m !! k ≫= live t) end;
    reflexivity.
Qed.

Lemma message_tells_origin_witness :
  says_from_cache (fst (serve toy GetProperties (searching q_cheap) warmed)) = true
  /\ says_from_cache (fst (serve toy GetProperties (searching q_cheap) boot)) = false.
Proof.
  split.
  - exact (message_tells_origin toy GetProperties (searching q_cheap) warmed _ eq_refl).
  - vm_compute. reflexivity.
Defined.

Lemma string_forallb_impl (p q : ascii -> bool) s :
  (forall c, p c = true -> q c = true) ->
  string_forallb p s = true -> string_forallb q s = true.
Proof.
  intros Hpq. induction s as [|c s IH]; [trivial|]. simpl.
  intros H. apply andb_true_iff in H as [Hc Hs].
  rewrite (Hpq c Hc), (IH Hs). reflexivity.
Qed.

Lemma hex_digit_not_star c : is_hex_digit c = true -> negb (Ascii.eqb c "*") = true.
Proof.
  intros H. destruct (Ascii.eqb c "*") eqn:E; [|reflexivity].
  apply Ascii.eqb_eq in E. subst c. discriminate H.
Qed.

(** A pattern without [*] selects the one key it spells. *)
Lemma glob_literal (p k : string) :
  string_forallb (fun c => negb (Ascii.eqb c "*")) p = true ->
  glob p k = String.eqb p k.
Proof.
  revert k. induction p as [|c p IH]; intros k Hp.
  - destruct k; reflexivity.
  - simpl in Hp. apply andb_true_iff in Hp as [Hc Hp]. apply negb_true_iff in Hc.
    cbn [glob]. rewrite Hc. destruct k as [|d k]; [reflexivity|].
    rewrite (IH k Hp). cbn [String.eqb]. destruct (Ascii.eqb c d); reflexivity.
Qed.

Lemma glob_own_key req k :
  ObjectId_isValid (req_user_id req) = true ->
  glob (own_key req) k = String.eqb (own_key req) k.
Proof.
  intros Hv. apply glob_literal. unfold own_key.
  apply andb_true_iff in Hv as [_ Hv].
  change (string_forallb (fun c => negb (Ascii.eqb c "*"))
            ("myProperties:" ++ req_user_id req))
    with (string_forallb (fun c => negb (Ascii.eqb c "*")) (req_user_id req)).
  exact (string_forallb_impl _ _ _ hex_digit_not_star Hv).
Qed.

Lemma postProperty_reply req w :
  exists doc,
    fst (postProperty req w)
    = Json 201 [("message", VStr "Property listed successfully"); ("property", doc)].
Proof. unfold postProperty, try_catch. cbn. eexists. reflexivity. Qed.

(** What an update or a delete that went through has done. *)
Lemma scoped_success h req w :
  h <> PostProperty ->
  succeeded (fst (perform h req w)) = true ->
  ObjectId_isValid (req_user_id req) = true
  /\ clock (snd (perform h req w)) = clock w
  /\ cache (snd (perform h req w))
     = evict (own_key req) (evict "properties:*" (cache w)).
Proof.
  intros Hh. destruct h; [congruence| |]; cbn [perform].
  - destruct (ObjectId_isValid (req_params_id req) && ObjectId_isValid (req_user_id req))
      eqn:V.
    + apply andb_true_iff in V as [Vp Vu].
      rewrite (updateProperty_run req w _ _ (new_ObjectId_valid _ Vp)
                 (new_ObjectId_valid _ Vu)). cbv zeta.
      destruct (store_update _ _ (db w)) as [[doc|] d]; cbn; [auto | discriminate].
    + rewrite (updateProperty_throw req w V). discriminate.
  - destruct (ObjectId_isValid (req_user_id req)) eqn:Vu.
    + rewrite (deleteProperty_run req w _ (new_ObjectId_valid _ Vu)). cbv zeta.
      destruct (store_delete _ (db w)) as [[doc|] d]; cbn; [auto | discriminate].
    + rewrite (deleteProperty_throw req w Vu). discriminate.
Qed.

Lemma failed_write_cache h req w :
  succeeded (fst (perform h req w)) = false -> cache (snd (perform h req w)) = cache w.
Proof.
  destruct h; cbn [perform].
  - destruct (postProperty_reply req w) as [doc ->]. discriminate.
  - destruct (ObjectId_isValid (req_params_id req) && ObjectId_isValid (req_user_id req))
      eqn:V.
    + apply andb_true_iff in V as [Vp Vu].
      rewrite (updateProperty_run req w _ _ (new_ObjectId_valid _ Vp)
                 (new_ObjectId_valid _ Vu)). cbv zeta.
      destruct (store_update _ _ (db w)) as [[doc|] d]; cbn; [discriminate | reflexivity].
    + rewrite (updateProperty_throw req w V). reflexivity.
  - destruct (ObjectId_isValid (req_user_id req)) eqn:Vu.
    + rewrite (deleteProperty_run req w _ (new_ObjectId_valid _ Vu)). cbv zeta.
      destruct (store_delete _ (db w)) as [[doc|] d]; cbn; [discriminate | reflexivity].
    + rewrite (deleteProperty_throw req w Vu). reflexivity.
Qed.

(** X8.  Whatever the request body holds, a create sends the store a
    document whose [id] is the decimal text of the clock, whose
    [listerId] is the caller and whose [isVerified] is false: values the
    client gives for these three are overwritten.  Every other property
    of the body is passed on as it came. *)
Theorem create_stamps_over_body (req : request) (w : world) :
  exists propertyData,
    calls (snd (postProperty req w))
    = (calls w ++ [queries_call "createProperty" [VObj propertyData];
                   redis_DEL "properties:*"])%list
    /\ get_field "id" propertyData = Some (VStr (string_of_Z (clock w)))
    /\ get_field "listerId" propertyData = Some (VStr (req_user_id req))
    /\ get_field "isVerified" propertyData = Some (VBool false)
    /\ forall k, stamped k = false ->
         get_field k propertyData = get_field k (req_body req).
Proof.
  pose proof (postProperty_world req w) as Hw. cbv zeta in Hw. rewrite Hw.
  eexists. split; [reflexivity|].
  split; [rewrite !get_set_field; reflexivity|].
  split; [rewrite !get_set_field; reflexivity|].
  split; [rewrite !get_set_field; reflexivity|].
  intros k Hk. unfold stamped in Hk.
  apply orb_false_iff in Hk as [Hk Hv]. apply orb_false_iff in Hk as [Hi Hl].
  rewrite !get_set_field, Hv, Hl, Hi. reflexivity.
Qed.

Lemma create_stamps_over_body_witness :
  exists propertyData,
    calls (snd (postProperty
                  (by_user alice [("isVerified", VBool true); ("listerId", VStr bob);
                                  ("title", VStr "Flat")] "") boot))
    = [queries_call "createProperty" [VObj propertyData]; redis_DEL "properties:*"]
    /\ get_field "listerId" propertyData = Some (VStr alice)
    /\ get_field "isVerified" propertyData = Some (VBool false)
    /\ get_field "title" propertyData = Some (VStr "Flat").
Proof.
  destruct (create_stamps_over_body
              (by_user alice [("isVerified", VBool true); ("listerId", VStr bob);
                              ("title", VStr "Flat")] "") boot)
    as (data & Hc & _ & Hl & Hv & Hrest).
  exists data. split; [exact Hc|]. split; [exact Hl|]. split; [exact Hv|].
  rewrite (Hrest "title" eq_refl). reflexivity.
Defined.

(** X9.  An update or a delete that answers 404 has issued one call,
    the query to the persistence store, and none to the cache: the
    cache is as it was, and the answer carries the fixed message of the
    operation.  A create never answers 404. *)
Theorem not_found_write_invalidates_nothing (h : writer) (req : request) (w : world)
    (body : obj) :
  fst (perform h req w) = Json 404 body ->
  h <> PostProperty
  /\ body = not_found_or_forbidden h
  /\ cache (snd (perform h req w)) = cache w
  /\ exists name args,
       calls (snd (perform h req w)) = (calls w ++ [queries_call name args])%list.
Proof.
  destruct h; cbn [perform].
  - destruct (postProperty_reply req w) as [doc ->]. discriminate.
  - destruct (ObjectId_isValid (req_params_id req) && ObjectId_isValid (req_user_id req))
      eqn:V.
    + apply andb_true_iff in V as [Vp Vu].
      rewrite (updateProperty_run req w _ _ (new_ObjectId_valid _ Vp)
                 (new_ObjectId_valid _ Vu)). cbv zeta.
      destruct (store_update _ _ (db w)) as [[doc|] d]; cbn; [discriminate|].
      intros [= <-]. split; [discriminate|]. split; [reflexivity|].
      split; [reflexivity|]. eexists _, _. reflexivity.
    + rewrite (updateProperty_throw req w V). discriminate.
  - destruct (ObjectId_isValid (req_user_id req)) eqn:Vu.
    + rewrite (deleteProperty_run req w _ (new_ObjectId_valid _ Vu)). cbv zeta.
      destruct (store_delete _ (db w)) as [[doc|] d]; cbn; [discriminate|].
      intros [= <-]. split; [discriminate|]. split; [reflexivity|].
      split; [reflexivity|]. eexists _, _. reflexivity.
    + rewrite (deleteProperty_throw req w Vu). discriminate.
Qed.

Lemma not_found_write_invalidates_nothing_witness :
  fst (perform DeleteProperty bob_on_flat after_create)
  = Json 404 (not_found_or_forbidden DeleteProperty)
  /\ cache (snd (perform DeleteProperty bob_on_flat after_create)) = cache after_create.
Proof.
  split; [vm_compute; reflexivity|].
  exact (proj1 (proj2 (proj2 (not_found_write_invalidates_nothing DeleteProperty bob_on_flat
                                after_create _ ltac:(vm_compute; reflexivity))))).
Defined.

(** X10.  No write evicts anything but property-search entries and the
    caller's own list: every key outside the search class and different
    from [myProperties:<callerId>] keeps its entry through a create, an
    update or a delete.  The reference lists and the other callers'
    lists stay cached. *)
Theorem writes_keep_other_entries (h : writer) (req : request) (w : world) (k : string) :
  search_class k = false ->
  k <> own_key req ->
  cache (snd (perform h req w)) !! k = cache w !! k.
Proof.
  intros Hs Hk.
  assert (evict "properties:*" (cache w) !! k = cache w !! k) as Hfirst.
  { rewrite lookup_evict, glob_properties, Hs. reflexivity. }
  destruct h.
  - cbn [perform]. pose proof (postProperty_world req w) as Hw. cbv zeta in Hw.
    rewrite Hw. exact Hfirst.
  - destruct (succeeded (fst (perform UpdateProperty req w))) eqn:S.
    + destruct (scoped_success UpdateProperty req w ltac:(discriminate) S) as (Vu & _ & ->).
      rewrite lookup_evict, (glob_own_key req k Vu), Hfirst.
      destruct (String.eqb (own_key req) k) eqn:E; [|reflexivity].
      apply String.eqb_eq in E. congruence.
    + rewrite (failed_write_cache UpdateProperty req w S).
      reflexivity.
  - destruct (succeeded (fst (perform DeleteProperty req w))) eqn:S.
    + destruct (scoped_success DeleteProperty req w ltac:(discriminate) S) as (Vu & _ & ->).
      rewrite lookup_evict, (glob_own_key req k Vu), Hfirst.
      destruct (String.eqb (own_key req) k) eqn:E; [|reflexivity].
      apply String.eqb_eq in E. congruence.
    + rewrite (failed_write_cache DeleteProperty req w S).
      reflexivity.
Qed.

Lemma writes_keep_other_entries_witness :
  cache (snd (perform PostProperty alice_lists
                (snd (serve toy GetCity alice_reads after_first_read)))) !! "cities"
  = cache (snd (serve toy GetCity alice_reads after_first_read)) !! "cities".
Proof.
  exact (writes_keep_other_entries PostProperty alice_lists
           (snd (serve toy GetCity alice_reads after_first_read)) "cities"
           eq_refl ltac:(discriminate)).
Defined.

(** X11.  An update or a delete that went through has evicted the
    caller's own list: the entry under [myProperties:<callerId>] is
    gone, and the caller's next my-properties read queries the
    persistence store and answers with the caller's properties as the
    store holds them after the write. *)
Theorem scoped_write_refreshes_own_list (P : platform) (h : writer) (req read : request)
    (w : world) :
  h <> PostProperty ->
  succeeded (fst (perform h req w)) = true ->
  req_user_id read = req_user_id req ->
  let w' := snd (perform h req w) in
  cache w' !! own_key req = None
  /\ exists owner w'',
       new_ObjectId (req_user_id req) = Ok owner
       /\ getMyProperties P read w'
          = (Json 200 [("message", VStr "My properties fetched successfully");
                       ("properties",
                        VArr (List.filter (selects [("listerId", VOid owner)])
                                (properties (db w'))))], w'')
       /\ queries_call "getMyProperties" [VObj [("listerId", VOid owner)]] ∈ calls w''.
Proof.
  intros Hh S Hu w'.
  destruct (scoped_success h req w Hh S) as (Vu & _ & Hcache).
  assert (cache w' !! own_key req = None) as Hgone.
  { unfold w'. rewrite Hcache, lookup_evict, (glob_own_key req _ Vu), String.eqb_refl.
    reflexivity. }
  split; [exact Hgone|].
  eexists _, _. split; [apply new_ObjectId_valid, Vu|].
  split.
  - apply getMyProperties_miss.
    + rewrite Hu. apply new_ObjectId_valid, Vu.
    + rewrite Hu. apply cached_absent, Hgone.
  - cbn [calls after]. apply elem_of_app. right.
    apply list_elem_of_further, list_elem_of_here.
Qed.

Lemma scoped_write_refreshes_own_list_witness :
  cached after_create (own_key alice_deletes) = Some (VArr [])
  /\ cache (snd (perform DeleteProperty alice_deletes after_create)) !! own_key alice_deletes
     = None.
Proof.
  split; [vm_compute; reflexivity|].
  exact (proj1 (scoped_write_refreshes_own_list toy DeleteProperty alice_deletes alice_reads
                  after_create ltac:(discriminate) ltac:(vm_compute; reflexivity) eq_refl)).
Defined.

(** X12.  A caller whose identity is not a well-formed identifier is
    turned away by the three owner-scoped handlers (my-properties,
    update, delete end in [next(InvalidReference)] with the world as it
    was), but not by create, which never parses the identity: it
    answers 201 and sends the store a document owned by that text. *)
Theorem malformed_caller (P : platform) (req : request) (w : world) :
  ObjectId_isValid (req_user_id req) = false ->
  getMyProperties P req w = (Next InvalidReference, w)
  /\ updateProperty req w = (Next InvalidReference, w)
  /\ deleteProperty req w = (Next InvalidReference, w)
  /\ exists doc propertyData rest,
       fst (postProperty req w)
       = Json 201 [("message", VStr "Property listed successfully"); ("property", doc)]
       /\ calls (snd (postProperty req w))
          = (calls w ++ queries_call "createProperty" [VObj propertyData] :: rest)%list
       /\ get_field "listerId" propertyData = Some (VStr (req_user_id req)).
Proof.
  intros Hv. split; [apply getMyProperties_throw, Hv|].
  split; [apply updateProperty_throw; rewrite Hv; apply andb_false_r|].
  split; [apply deleteProperty_throw, Hv|].
  destruct (postProperty_reply req w) as [doc Hdoc].
  pose proof (postProperty_world req w) as Hw. cbv zeta in Hw.
  exists doc. eexists _, _. split; [exact Hdoc|]. rewrite Hw. cbn [calls].
  split; [reflexivity|]. rewrite !get_set_field. reflexivity.
Qed.

Lemma malformed_caller_witness :
  getMyProperties toy (by_user mallory flat "") boot = (Next InvalidReference, boot)
  /\ fst (postProperty (by_user mallory flat "") boot)
     = Json 201 [("message", VStr "Property listed successfully");
                 ("property",
                  VObj [("title", VStr "Flat"); ("price", VNum (NInt 1500));
                        ("id", VStr "1700000000000"); ("listerId", VStr mallory);
                        ("isVerified", VBool false); ("_id", VOid (mint 0))])].
Proof.
  split.
  - exact (proj1 (malformed_caller toy (by_user mallory flat "") boot eq_refl)).
  - vm_compute. reflexivity.
Defined.
